(** * Sales-data transformation notebook

    A shallow embedding of [Databricks_Data_Transformations_Project.py]:
    the ten-row sales table, its cleaning stage (null fill, then the
    filter on [status]), its derivation stage (the [total_price] and
    [customer_full_name] columns) and its two grouped summaries.

    The notebook is a sequence of DataFrame queries.  A DataFrame is
    modelled as the list of its rows in table order, a row as a record
    with one field per column of the declared schema, and a nullable
    column as an [option].  Every column of [sales_schema] is declared
    with [nullable = True], so every field is an [option].  Each
    DataFrame variable of the notebook is a function of the DataFrame it
    is computed from, so that the statements hold for every table of the
    schema; [df_raw_sales] is the table of the notebook.

    The engine's column operators are given their SQL meaning: a
    comparison or an arithmetic operator applied to a null is null, a
    [filter] keeps the rows on which its condition is true (neither false
    nor null), [sum] skips nulls, [count(c)] counts the rows where [c] is
    not null, grouping treats null as a key of its own and an ascending
    [orderBy] puts nulls first.  [DoubleType] is IEEE-754 binary64, here
    the primitive [float] of the standard library; [round] is the
    engine's, half up on the decimal that the double prints as.

    The engine keeps a table in partitions, runs of consecutive rows.
    An aggregate is computed partition by partition, each partition
    folding its rows in their order, and the partial results are merged
    in the order they arrive.  Both are the engine's choice, so the
    summary by region takes a [Spark.Plan] per region, and what is
    stated of it is stated for every plan. *)

From Stdlib Require Import ZArith String Ascii List Floats Bool Lia.
From Stdlib Require Import Sorted Permutation.
Import ListNotations.
Local Open Scope Z_scope.

(* ================================================================== *)
(** * DoubleType values *)
(* ================================================================== *)

Module Double.

(** The double nearest to the fraction [n / d] (ties to even), with sign
    [s]: the quotient is computed with a round and a sticky bit, then
    rounded as every binary64 operation is. *)
Definition of_ratio (s : bool) (n d : positive) : float :=
  let '(mz, ez, lz) := SFdiv_core_binary prec emax (Zpos n) 0 (Zpos d) 0 in
  SF2Prim (binary_round_aux prec emax s mz ez lz).

(** [cast(IntegerType as DoubleType)]. *)
Definition of_int (z : Z) : float :=
  match z with
  | Z0 => PrimFloat.zero
  | Zpos p => of_ratio false p 1
  | Zneg p => of_ratio true p 1
  end.

(** Numerator and denominator of [m * 2^e]. *)
Definition exact_ratio (m : positive) (e : Z) : positive * positive :=
  match e with
  | Z0 => (m, 1%positive)
  | Zpos k => ((m * 2 ^ k)%positive, 1%positive)
  | Zneg k => (m, (2 ^ k)%positive)
  end.

(** Numerator and denominator of the decimal [c * 10^q]. *)
Definition decimal_ratio (c : positive) (q : Z) : positive * positive :=
  match q with
  | Z0 => (c, 1%positive)
  | Zpos k => ((c * 10 ^ k)%positive, 1%positive)
  | Zneg k => (c, (10 ^ k)%positive)
  end.

(** [BigDecimal.doubleValue] of the decimal [c * 10^q]. *)
Definition of_decimal (s : bool) (c : positive) (q : Z) : float :=
  let '(n, d) := decimal_ratio c q in of_ratio s n d.

(** [10^x <= n / d]. *)
Definition pow10_le (x : Z) (n d : positive) : bool :=
  let '(pn, pd) := decimal_ratio 1 x in
  Zpos pn * Zpos d <=? Zpos n * Zpos pd.

Fixpoint climb (fuel : nat) (x : Z) (n d : positive) : Z :=
  match fuel with
  | O => x
  | S fuel' => if pow10_le (x + 1) n d then climb fuel' (x + 1) n d else x
  end.

(** The decimal exponent of [n / d]: the [x] with
    [10^x <= n / d < 10^(x+1)].  The estimate from the binary logarithms
    is at most two below it. *)
Definition log10_floor (n d : positive) : Z :=
  climb 3 ((Z.log2 (Zpos n) - Z.log2 (Zpos d)) * 30103 / 100000 - 1) n d.

(** [floor ((n / d) / 10^q)]. *)
Definition scaled_floor (n d : positive) (q : Z) : Z :=
  let '(pn, pd) := decimal_ratio 1 q in
  (Zpos n * Zpos pd) / (Zpos d * Zpos pn).

(** Where [n / d] lies with respect to the midpoint of [c * 10^q] and
    [(c + 1) * 10^q]. *)
Definition midpoint_compare (n d : positive) (c q : Z) : comparison :=
  let '(pn, pd) := decimal_ratio 1 q in
  2 * Zpos n * Zpos pd ?= (2 * c + 1) * Zpos pn * Zpos d.

(** The multiple of [10^q] nearest to [n / d], ties to the even one. *)
Definition nearest (n d : positive) (q : Z) : Z :=
  let lo := scaled_floor n d q in
  match midpoint_compare n d lo q with
  | Lt => lo
  | Gt => lo + 1
  | Eq => if Z.even lo then lo else lo + 1
  end.

(** Does the decimal [c * 10^q] read back as the double [x]? *)
Definition round_trips (x : float) (c q : Z) : bool :=
  match c with
  | Zpos c' => PrimFloat.eqb (of_decimal false c' q) x
  | _ => false
  end.

(** Among the two multiples of [10^q] around [n / d], the one that reads
    back as [x]; the nearer one when both do. *)
Definition candidate (x : float) (n d : positive) (q : Z) : option Z :=
  let lo := scaled_floor n d q in
  match round_trips x lo q, round_trips x (lo + 1) q with
  | true, true => Some (nearest n d q)
  | true, false => Some lo
  | false, true => Some (lo + 1)
  | false, false => None
  end.

Fixpoint shortest (fuel : nat) (x : float) (n d : positive) (q : Z) : Z * Z :=
  match fuel with
  | O => (nearest n d q, q)
  | S fuel' =>
      match candidate x n d q with
      | Some c => (c, q)
      | None => shortest fuel' x n d (q - 1)
      end
  end.

(** The decimal [(c, q)], read [c * 10^q], that [Double.toString] prints
    for the magnitude [m * 2^e] of a finite non-zero double: the decimal
    with the fewest digits that reads back as the same double, the one
    nearest to the double when there are several.  Two digits are tried
    first and seventeen always suffice. *)
Definition to_decimal (m : positive) (e : Z) : Z * Z :=
  let '(n, d) := exact_ratio m e in
  shortest 15 (of_ratio false n d) n d (log10_floor n d - 1).

(** [BigDecimal.setScale(scale, HALF_UP)] of the magnitude [c * 10^q],
    as a count of units [10^-scale]: a tie goes away from zero. *)
Definition set_scale_half_up (scale c q : Z) : Z :=
  match q + scale with
  | Zneg k => (2 * c + Zpos (10 ^ k)) / (2 * Zpos (10 ^ k))
  | k => c * 10 ^ k
  end.

(** The engine's [round] on a double:
    [BigDecimal(d).setScale(scale, HALF_UP).toDouble], with NaN and the
    infinities returned as they are.  A [BigDecimal] has no signed zero,
    so whatever rounds to zero comes back as [+0.0]. *)
Definition round (scale : Z) (x : float) : float :=
  match Prim2SF x with
  | S754_finite s m e =>
      let '(c, q) := to_decimal m e in
      match set_scale_half_up scale c q with
      | Zpos r => let '(n, d) := decimal_ratio r (- scale) in of_ratio s n d
      | _ => PrimFloat.zero
      end
  | S754_zero _ => PrimFloat.zero
  | _ => x
  end.

(** The double nearest to [cents / 100]. *)
Definition of_cents (cents : Z) : float :=
  match cents with
  | Z0 => PrimFloat.zero
  | Zpos r => of_ratio false r 100
  | Zneg r => of_ratio true r 100
  end.

(** The number of cents a double stands for: the [c] nearest to
    [100 x], when [x] is the double nearest to [c / 100]. *)
Definition to_cents (x : float) : option Z :=
  match Prim2SF x with
  | S754_zero _ => Some 0
  | S754_finite s m e =>
      let '(n, d) := exact_ratio m e in
      let c := nearest n d (-2) in
      if round_trips (of_ratio false n d) c (-2)
      then Some (if s then - c else c)
      else None
  | _ => None
  end.

Definition is_finite (x : float) : bool :=
  match Prim2SF x with
  | S754_finite _ _ _ | S754_zero _ => true
  | _ => false
  end.

End Double.

(* ================================================================== *)
(** * The engine's column operators and DataFrame operations *)
(* ================================================================== *)

Definition DataFrame (R : Type) : Type := list R.

Module Spark.

Definition lit {A : Type} (v : A) : option A := Some v.

(** [coalesce(c, lit(v))]. *)
Definition coalesce {A : Type} (c : option A) (v : A) : option A :=
  match c with
  | Some x => Some x
  | None => Some v
  end.

(** [a != b] on strings: exact comparison of the bytes, null when either
    side is null. *)
Definition ne (a b : option string) : option bool :=
  match a, b with
  | Some x, Some y => Some (negb (String.eqb x y))
  | _, _ => None
  end.

(** [c.cast(DoubleType())] on an integer column. *)
Definition cast_double (c : option Z) : option float :=
  option_map Double.of_int c.

(** [a * b] on doubles. *)
Definition mul (a b : option float) : option float :=
  match a, b with
  | Some x, Some y => Some (PrimFloat.mul x y)
  | _, _ => None
  end.

Definition round (c : option float) (scale : Z) : option float :=
  option_map (Double.round scale) c.

(** [concat(a, b)]: null when either argument is null. *)
Definition concat (a b : option string) : option string :=
  match a, b with
  | Some x, Some y => Some (x ++ y)%string
  | _, _ => None
  end.

(** [df.filter(cond)]: the rows on which [cond] is true. *)
Definition filter {R : Type} (cond : R -> option bool) (df : DataFrame R)
  : DataFrame R :=
  List.filter (fun r => match cond r with Some true => true | _ => false end) df.

(** The update of the [sum] buffer by one row:
    [coalesce(coalesce(sum, 0.0) + value, sum)]. *)
Definition sum_update (buf value : option float) : option float :=
  match value with
  | None => buf
  | Some v =>
      Some (PrimFloat.add (match buf with Some s => s | None => PrimFloat.zero end) v)
  end.

(** The [sum] buffer after the values of one partition, taken in the
    order of its rows.  The partial sums are merged by the same
    expression, [coalesce(coalesce(sum.left, 0.0) + sum.right, sum.left)]. *)
Definition sum_buffer (values : list (option float)) : option float :=
  fold_left sum_update values None.

(** How the engine runs an aggregate over the rows of a group.  The
    rows lie in partitions, runs of consecutive rows of the table:
    [cuts] are the numbers of rows of the group in the successive
    partitions, the rows left over making the last one.  The partial
    results arrive in some order: each of [picks] is the position, among
    the partial results not yet arrived, of the next to arrive. *)
Record Plan : Type := mkPlan {
  cuts : list nat;
  picks : list nat
}.

Fixpoint cut {A : Type} (sizes : list nat) (rows : list A) : list (list A) :=
  match sizes with
  | [] => [rows]
  | n :: sizes' => firstn n rows :: cut sizes' (skipn n rows)
  end.

Fixpoint arrange {A : Type} (positions : list nat) (l : list A) : list A :=
  match positions with
  | [] => l
  | i :: positions' =>
      match skipn i l with
      | x :: rest => x :: arrange positions' (firstn i l ++ rest)
      | [] => l
      end
  end.

(** The rows of a group partition by partition, in the order in which
    the partial results arrive. *)
Definition run_plan {A : Type} (plan : Plan) (rows : list A) : list (list A) :=
  arrange (picks plan) (cut (cuts plan) rows).

(** All the rows of the group in one partition. *)
Definition one_partition : Plan := mkPlan [] [].

(** [sum(c)] over the rows of a group: every partition adds its values,
    and the partial sums are added as they arrive. *)
Definition sum (plan : Plan) (values : list (option float)) : option float :=
  sum_buffer (map sum_buffer (run_plan plan values)).

Definition count_update {A : Type} (buf : Z) (value : option A) : Z :=
  match value with
  | None => buf
  | Some _ => buf + 1
  end.

(** [count(c)] over the rows of a group: the rows where [c] is not null.
    The partitions' counts are integers and add up to the same number
    under every plan, so the count is taken over the rows in table
    order. *)
Definition count {A : Type} (values : list (option A)) : Z :=
  fold_left count_update values 0.

Section Grouping.
Context {R K V : Type}.
Variable K_eq_dec : forall x y : K, {x = y} + {x <> y}.
Variable key : R -> K.

Definition has_key (k : K) (r : R) : bool :=
  if K_eq_dec (key r) k then true else false.

(** [df.groupBy(key)]: one group per distinct key of [df], holding the
    rows with that key in table order.  The order of the groups is the
    engine's own; the notebook sorts every grouped result. *)
Definition groupBy (df : DataFrame R) : list (K * list R) :=
  map (fun k => (k, List.filter (has_key k) df)) (nodup K_eq_dec (map key df)).

(** [grouped.agg(f)]: one output row per group. *)
Definition agg (f : K -> list R -> V) (groups : list (K * list R)) : DataFrame V :=
  map (fun g => f (fst g) (snd g)) groups.
End Grouping.

Section Ordering.
Context {R K : Type}.
Variable compare : K -> K -> comparison.
Variable key : R -> K.

Definition key_leb (a b : R) : bool :=
  match compare (key a) (key b) with
  | Gt => false
  | _ => true
  end.

(** [a] comes strictly before [b]. *)
Definition key_lt (a b : R) : Prop := compare (key a) (key b) = Lt.

Fixpoint insert (r : R) (sorted : list R) : list R :=
  match sorted with
  | [] => [r]
  | h :: t => if key_leb r h then r :: sorted else h :: insert r t
  end.

(** [df.orderBy(key)], ascending. *)
Definition orderBy (df : DataFrame R) : DataFrame R :=
  fold_right insert [] df.
End Ordering.

End Spark.

(* ================================================================== *)
(** * Orders on the sort keys *)
(* ================================================================== *)

(** Strings are compared byte by byte, a proper prefix before its
    extensions: [String.compare]. *)

(** [s1] is before [s2] in the lexicographic order of their bytes. *)
Inductive bytes_lt : string -> string -> Prop :=
| bytes_lt_prefix : forall c s, bytes_lt EmptyString (String c s)
| bytes_lt_head : forall c1 c2 s1 s2,
    (N_of_ascii c1 < N_of_ascii c2)%N -> bytes_lt (String c1 s1) (String c2 s2)
| bytes_lt_tail : forall c s1 s2,
    bytes_lt s1 s2 -> bytes_lt (String c s1) (String c s2).

(** Ascending order on a nullable key: null first. *)
Definition option_compare {A : Type} (cmp : A -> A -> comparison)
  (a b : option A) : comparison :=
  match a, b with
  | None, None => Eq
  | None, Some _ => Lt
  | Some _, None => Gt
  | Some x, Some y => cmp x y
  end.

(** Order on a pair of keys: the first key decides, the second breaks
    its ties. *)
Definition pair_compare {A B : Type} (cmpA : A -> A -> comparison)
  (cmpB : B -> B -> comparison) (a b : A * B) : comparison :=
  match cmpA (fst a) (fst b) with
  | Eq => cmpB (snd a) (snd b)
  | c => c
  end.

(** What the sort needs of a comparison: it decides equality, swapping
    its arguments reverses it, and "less than" is transitive. *)
Record total_order {K : Type} (compare : K -> K -> comparison) : Prop := {
  compare_eq : forall a b, compare a b = Eq -> a = b;
  compare_refl : forall a, compare a a = Eq;
  compare_antisym : forall a b, compare a b = CompOpp (compare b a);
  compare_trans :
    forall a b c, compare a b = Lt -> compare b c = Lt -> compare a c = Lt
}.

Definition region_compare : option string -> option string -> comparison :=
  option_compare String.compare.

Definition region_status_compare
  : option string * option string -> option string * option string -> comparison :=
  pair_compare region_compare (option_compare String.compare).


Definition region_status_lt (a b : option string * option string) : Prop :=
  region_status_compare a b = Lt.

Definition option_string_eq_dec (a b : option string) : {a = b} + {a <> b}.
Proof. decide equality. apply string_dec. Defined.

Definition region_status_eq_dec (a b : option string * option string)
  : {a = b} + {a <> b}.
Proof. decide equality; apply option_string_eq_dec. Defined.

(* ================================================================== *)
(** * The tables of the notebook *)
(* ================================================================== *)

(** A row of [sales_schema].  [quantity] is an [IntegerType] (a 32-bit
    integer, here its value), [price_per_unit] a [DoubleType]. *)
Record Row : Type := mkRow {
  order_id : option string;
  customer_name : option string;
  item : option string;
  quantity : option Z;
  price_per_unit : option float;
  region : option string;
  status : option string
}.

(** A row after [withColumn("total_price", ...)]: the columns of
    [sales_schema], none of which is named [total_price], and the new
    column after them. *)
Record PricedRow : Type := mkPricedRow {
  sales_columns :> Row;
  total_price : option float
}.

(** A row after [withColumn("customer_full_name", ...)]. *)
Record NamedRow : Type := mkNamedRow {
  priced_columns :> PricedRow;
  customer_full_name : option string
}.

(** A row of the summary by region. *)
Record RegionSales : Type := mkRegionSales {
  sales_region : option string;
  total_regional_sales : option float
}.

(** A row of the summary by region and status. *)
Record RegionStatusOrders : Type := mkRegionStatusOrders {
  orders_region : option string;
  orders_status : option string;
  number_of_orders : Z
}.

(** One tuple of [raw_sales_data]. *)
Definition sale (oid name it : string) (qty : option Z) (price : float)
  (reg st : string) : Row :=
  mkRow (Some oid) (Some name) (Some it) qty (Some price) (Some reg) (Some st).

#[warnings="-inexact-float"]
Definition raw_sales_data : list Row := [
  sale "ORD001" "Alice Smith" "Laptop" (Some 1) 1200.50 "North" "Completed";
  sale "ORD002" "Bob Johnson" "Mouse" (Some 2) 25.00 "South" "Pending";
  sale "ORD003" "Charlie Brown" "Keyboard" (Some 1) 75.25 "East" "Completed";
  sale "ORD004" "Alice Smith" "Monitor" (Some 1) 300.00 "North" "Pending";
  sale "ORD005" "Eve Davis" "Laptop Bag" (Some 1) 45.00 "West" "Cancelled";
  sale "ORD006" "Bob Johnson" "Headphones" (Some 3) 50.00 "South" "Completed";
  sale "ORD007" "Grace Lee" "Webcam" (Some 1) 60.00 "East" "Completed";
  sale "ORD008" "Frank White" "Mouse" None 25.00 "North" "Completed";
  sale "ORD009" "Charlie Brown" "External SSD" (Some 1) 99.99 "East" "Pending";
  sale "ORD010" "Alice Smith" "Webcam" (Some 1) 60.00 "North" "Completed"
].

(** [spark.createDataFrame(raw_sales_data, schema=sales_schema)]. *)
Definition df_raw_sales : DataFrame Row := raw_sales_data.

(** ** Step 1: cleaning *)

(** [df.na.fill(value, subset=["quantity"])]. *)
Definition na_fill_quantity (value : Z) (df : DataFrame Row) : DataFrame Row :=
  map (fun r =>
         mkRow (order_id r) (customer_name r) (item r)
               (Spark.coalesce (quantity r) value)
               (price_per_unit r) (region r) (status r)) df.

Definition df_cleaned_quantity (df_raw_sales : DataFrame Row) : DataFrame Row :=
  na_fill_quantity 0 df_raw_sales.

Definition df_filtered_orders (df_cleaned_quantity : DataFrame Row)
  : DataFrame Row :=
  Spark.filter (fun r => Spark.ne (status r) (Spark.lit "Cancelled"%string))
               df_cleaned_quantity.

(** ** Step 2: derived columns *)

Definition df_with_total_price (df_filtered_orders : DataFrame Row)
  : DataFrame PricedRow :=
  map (fun r =>
         mkPricedRow r
           (Spark.round
              (Spark.mul (Spark.cast_double (quantity r)) (price_per_unit r))
              2))
      df_filtered_orders.

Definition df_with_customer_full_name (df_with_total_price : DataFrame PricedRow)
  : DataFrame NamedRow :=
  map (fun r =>
         mkNamedRow r (Spark.concat (customer_name r) (Spark.lit EmptyString)))
      df_with_total_price.

(** ** Step 3: summaries *)

(** The summary by region, the sum of each region run by the plan
    [plan] gives to the region. *)
Definition df_sales_by_region (plan : option string -> Spark.Plan)
  (df_with_customer_full_name : DataFrame NamedRow) : DataFrame RegionSales :=
  Spark.orderBy region_compare sales_region
    (Spark.agg
       (fun k rows =>
          mkRegionSales k
            (Spark.round
               (Spark.sum (plan k) (map (fun r : NamedRow => total_price r) rows)) 2))
       (Spark.groupBy option_string_eq_dec (fun r : NamedRow => region r)
          df_with_customer_full_name)).

(** Every region in one partition. *)
Definition one_partition_each : option string -> Spark.Plan :=
  fun _ => Spark.one_partition.

(** In every region, the first row in a partition and the other rows in
    the next. *)
Definition first_row_apart : option string -> Spark.Plan :=
  fun _ => Spark.mkPlan [1%nat] [].

Definition df_orders_by_status_region
  (df_with_customer_full_name : DataFrame NamedRow)
  : DataFrame RegionStatusOrders :=
  Spark.orderBy region_status_compare
    (fun o => (orders_region o, orders_status o))
    (Spark.agg
       (fun k rows =>
          mkRegionStatusOrders (fst k) (snd k)
            (Spark.count (map (fun r : NamedRow => order_id r) rows)))
       (Spark.groupBy region_status_eq_dec
          (fun r : NamedRow => (region r, status r))
          df_with_customer_full_name)).

(** ** The stages *)

Definition cleaning_stage (raw : DataFrame Row) : DataFrame Row :=
  df_filtered_orders (df_cleaned_quantity raw).

Definition derivation_stage (cleaned : DataFrame Row) : DataFrame NamedRow :=
  df_with_customer_full_name (df_with_total_price cleaned).

(** The derived table of a run of the notebook on the table [raw]. *)
Definition derived_table (raw : DataFrame Row) : DataFrame NamedRow :=
  derivation_stage (cleaning_stage raw).

(** ** Vocabulary of the statements *)

(** What [na.fill(0, subset=["quantity"])] does to one row. *)
Definition filled (r r' : Row) : Prop :=
  order_id r' = order_id r /\ customer_name r' = customer_name r
  /\ item r' = item r /\ price_per_unit r' = price_per_unit r
  /\ region r' = region r /\ status r' = status r
  /\ quantity r' = match quantity r with Some q => Some q | None => Some 0 end.

(** The derived row [d] carries the seven columns of the cleaned row [r]. *)
Definition same_sales_columns (r : Row) (d : NamedRow) : Prop :=
  order_id d = order_id r /\ customer_name d = customer_name r
  /\ item d = item r /\ quantity d = quantity r
  /\ price_per_unit d = price_per_unit r
  /\ region d = region r /\ status d = status r.

(** [round(quantity * price_per_unit, 2)] on the columns of a row. *)
Definition rounded_product (r : Row) : option float :=
  match quantity r, price_per_unit r with
  | Some q, Some p => Some (Double.round 2 (PrimFloat.mul (Double.of_int q) p))
  | _, _ => None
  end.

(** The rows of [df] whose order identifier is [oid]. *)
Definition with_order (oid : string) (df : DataFrame Row) : list Row :=
  List.filter
    (fun r => match order_id r with Some x => String.eqb x oid | None => false end) df.

(** The rows of the summary by region for region [k]. *)
Definition sales_of_region (k : option string) (out : DataFrame RegionSales)
  : list RegionSales :=
  List.filter (fun o => if option_string_eq_dec (sales_region o) k then true else false) out.

(** The rows of [df] whose status is the string [s]. *)
Definition with_status (s : string) (df : DataFrame Row) : list Row :=
  List.filter
    (fun r => match status r with Some x => String.eqb x s | None => false end) df.

(** The rows of [df] whose status is null. *)
Definition with_null_status (df : DataFrame Row) : list Row :=
  List.filter (fun r => match status r with Some _ => false | None => true end) df.

(** [sub] is [l] with some elements removed: same elements, same
    relative order. *)
Inductive subsequence {A : Type} : list A -> list A -> Prop :=
| subsequence_nil : subsequence [] []
| subsequence_skip : forall x sub l, subsequence sub l -> subsequence sub (x :: l)
| subsequence_keep : forall x sub l, subsequence sub l -> subsequence (x :: sub) (x :: l).

(** The rows of the derived table [df] in region [k]. *)
Definition in_region (k : option string) (df : DataFrame NamedRow) : list NamedRow :=
  List.filter (fun r : NamedRow => if option_string_eq_dec (region r) k then true else false) df.

(** The rows of the derived table [df] in region [k] with status [s]. *)
Definition in_region_status (k s : option string) (df : DataFrame NamedRow)
  : list NamedRow :=
  List.filter
    (fun r : NamedRow =>
       if option_string_eq_dec (region r) k
       then if option_string_eq_dec (status r) s then true else false
       else false) df.

(** The rows of [df] with an order identifier. *)
Definition with_order_id (df : DataFrame NamedRow) : list NamedRow :=
  List.filter (fun r : NamedRow => match order_id r with Some _ => true | None => false end) df.

Definition sum_Z (l : list Z) : Z := fold_right Z.add 0 l.

(** A value of a column of amounts, in cents; a null adds nothing to a
    sum, and a double that is not a number of cents has no reading. *)
Definition cents_of (v : option float) : option Z :=
  match v with
  | None => Some 0
  | Some x => Double.to_cents x
  end.

Definition cents_or_zero (v : option float) : Z :=
  match cents_of v with
  | Some c => c
  | None => 0
  end.

(** The sum of a column of amounts, in cents, when every value of the
    column is a number of cents. *)
Definition total_cents (column : list (option float)) : option Z :=
  fold_right
    (fun v acc =>
       match cents_of v, acc with
       | Some c, Some a => Some (c + a)
       | _, _ => None
       end)
    (Some 0) column.

(** The total of the summary row [o] is, in cents, the exact sum of the
    total prices of the rows of its region in [df]. *)
Definition exact_regional_total (df : DataFrame NamedRow) (o : RegionSales) : Prop :=
  exists c,
    cents_of (total_regional_sales o) = Some c
    /\ total_cents (map (fun r : NamedRow => total_price r)
                        (in_region (sales_region o) df)) = Some c.

(** The sum of a column of counts. *)
Definition total_orders (out : DataFrame RegionStatusOrders) : Z :=
  sum_Z (map number_of_orders out).

(** ** Vocabulary of the end-to-end statements *)

(** The cleaning keeps the row: its status is a string other than
    "Cancelled". *)
Definition kept (r : Row) : bool :=
  match status r with
  | Some s => negb (String.eqb s "Cancelled")
  | None => false
  end.

(** The row after the null fill. *)
Definition fill_row (r : Row) : Row :=
  mkRow (order_id r) (customer_name r) (item r)
        (Some (match quantity r with Some q => q | None => 0 end))
        (price_per_unit r) (region r) (status r).

(** The row of the derived table computed from a cleaned row. *)
Definition derive_row (r : Row) : NamedRow :=
  mkNamedRow (mkPricedRow r (rounded_product r)) (customer_name r).

Definition region_is (k : option string) (r : Row) : bool :=
  if option_string_eq_dec (region r) k then true else false.

Definition status_is (s : option string) (r : Row) : bool :=
  if option_string_eq_dec (status r) s then true else false.

Definition has_order_id (r : Row) : bool :=
  match order_id r with
  | Some _ => true
  | None => false
  end.

(** The rows of the raw table in region [k] that the cleaning keeps. *)
Definition kept_in_region (k : option string) (raw : DataFrame Row) : list Row :=
  List.filter (fun r => kept r && region_is k r) raw.

(** The rows of the raw table in region [k], with status [s] and an
    order identifier. *)
Definition identified_orders (k s : option string) (raw : DataFrame Row)
  : list Row :=
  List.filter (fun r => region_is k r && status_is s r && has_order_id r) raw.

(** The rows of the summary by region and status for region [k]. *)
Definition orders_of_region (k : option string) (out : DataFrame RegionStatusOrders)
  : list RegionStatusOrders :=
  List.filter (fun o => if option_string_eq_dec (orders_region o) k then true else false)
              out.

(** The derived row [d] is what the pipeline makes of the raw row [r]:
    six columns as they are, the quantity with 0 for null, and the two
    derived columns. *)
Definition derived_from (r : Row) (d : NamedRow) : Prop :=
  order_id d = order_id r /\ customer_name d = customer_name r
  /\ item d = item r /\ price_per_unit d = price_per_unit r
  /\ region d = region r /\ status d = status r
  /\ quantity d = Some (match quantity r with Some q => q | None => 0 end)
  /\ total_price d
     = match price_per_unit r with
       | Some p =>
           Some (Double.round 2
                   (PrimFloat.mul
                      (Double.of_int (match quantity r with Some q => q | None => 0 end))
                      p))
       | None => None
       end
  /\ customer_full_name d = customer_name r.

(** ** Vocabulary of the statements on sums *)

(** The values of a column that are not null, in order. *)
Definition present (values : list (option float)) : list float :=
  flat_map (fun v => match v with Some x => [x] | None => [] end) values.

(** [s] is a sum of the doubles of [l], each taken once, in double
    arithmetic: in some order, in some grouping, and from 0.0. *)
Inductive adds_up : list float -> float -> Prop :=
| adds_up_nothing : adds_up [] PrimFloat.zero
| adds_up_one : forall x, adds_up [x] x
| adds_up_both : forall l1 l2 s1 s2,
    adds_up l1 s1 -> adds_up l2 s2 -> adds_up (l1 ++ l2) (PrimFloat.add s1 s2)
| adds_up_reordered : forall l l' s,
    Permutation l l' -> adds_up l s -> adds_up l' s.

(** What a buffer holds: nothing yet, or a sum of the values seen. *)
Definition holds (seen : list float) (buf : option float) : Prop :=
  match buf with
  | Some s => seen <> [] /\ adds_up seen s
  | None => seen = []
  end.

(** [r] is the decimal [c * 10^q] in cents, rounded half up:
    [r = floor (100 * c * 10^q + 1/2)]. *)
Definition half_up_cents (c q r : Z) : Prop :=
  match (q + 2)%Z with
  | Zneg k =>
      (2 * Zpos (10 ^ k) * r <= 2 * c + Zpos (10 ^ k) < 2 * Zpos (10 ^ k) * (r + 1))%Z
  | k => r = (c * 10 ^ k)%Z
  end.

(** [t] is the double [x] rounded to two decimals: the decimal that [x]
    prints as, in cents, rounded half up on its magnitude, as a double;
    zero is [+0.0], NaN and the infinities are themselves. *)
Definition rounded_to_cents (x t : float) : Prop :=
  match Prim2SF x with
  | S754_finite sg m e =>
      exists r,
        half_up_cents (fst (Double.to_decimal m e)) (snd (Double.to_decimal m e)) r
        /\ (0 <= r)%Z
        /\ t = Double.of_cents (if sg then (- r)%Z else r)
  | S754_zero _ => t = PrimFloat.zero
  | _ => t = x
  end.

(** The value of a sum over the column [values], rounded: null when
    every value is null, else a sum of the values present, rounded to
    two decimals. *)
Definition rounded_sum_of (values : list (option float)) (total : option float)
  : Prop :=
  (Forall (fun v => v = None) values /\ total = None)
  \/ (exists s t,
        present values <> [] /\ adds_up (present values) s
        /\ rounded_to_cents s t /\ total = Some t).

(** All the ways to put [x] into [l]. *)
Fixpoint inserts {A : Type} (x : A) (l : list A) : list (list A) :=
  (x :: l) ::
  match l with
  | [] => []
  | y :: t => map (cons y) (inserts x t)
  end.

(** All the orders of [l]. *)
Fixpoint orders {A : Type} (l : list A) : list (list A) :=
  match l with
  | [] => [[]]
  | x :: t => flat_map (inserts x) (orders t)
  end.

(** All the ways to cut [l] into runs that are not empty. *)
Fixpoint runs {A : Type} (l : list A) : list (list (list A)) :=
  match l with
  | [] => [[]]
  | x :: t =>
      flat_map
        (fun c => ([x] :: c) ::
                  match c with
                  | [] => []
                  | s :: rest => [(x :: s) :: rest]
                  end)
        (runs t)
  end.

Definition not_empty {A : Type} (l : list A) : bool :=
  match l with
  | [] => false
  | _ :: _ => true
  end.

(** ** Rows outside the notebook's data *)

(** A row whose status is null. *)
Definition order_without_status : Row :=
  mkRow (Some "ORD011"%string) (Some "Dan Young"%string) (Some "Mouse"%string)
        (Some 1) (Some 25%float) (Some "West"%string) None.

(** An order whose status is spelled in lower case. *)
Definition order_cancelled_in_lower_case : Row :=
  mkRow (Some "ORD013"%string) (Some "Dan Young"%string) (Some "Mouse"%string)
        (Some 1) (Some 25%float) (Some "West"%string) (Some "cancelled"%string).

(** Three orders of one region, the large amount first, and the same
    orders with the large amount last. *)
Definition large_amount_first : list Row := [
  sale "ORD201" "Dan Young" "Server" (Some 1) 9007199254740992 "North" "Completed";
  sale "ORD202" "Dan Young" "Cable" (Some 1) 1 "North" "Completed";
  sale "ORD203" "Dan Young" "Cable" (Some 1) 1 "North" "Completed"
].

Definition large_amount_last : list Row := [
  sale "ORD202" "Dan Young" "Cable" (Some 1) 1 "North" "Completed";
  sale "ORD203" "Dan Young" "Cable" (Some 1) 1 "North" "Completed";
  sale "ORD201" "Dan Young" "Server" (Some 1) 9007199254740992 "North" "Completed"
].

(** A completed order whose price is null. *)
Definition order_without_price : Row :=
  mkRow (Some "ORD012"%string) (Some "Dan Young"%string) (Some "Mouse"%string)
        (Some 2) None (Some "West"%string) (Some "Completed"%string).

(** A pending order whose identifier is null. *)
Definition order_without_id : Row :=
  mkRow None (Some "Dan Young"%string) (Some "Mouse"%string)
        (Some 1) (Some 25%float) (Some "West"%string) (Some "Pending"%string).

(** Six completed orders, two in the North, one of them of 2^53, and
    four in the South. *)
Definition large_sales : list Row := [
  sale "ORD101" "Dan Young" "Server" (Some 1) 9007199254740992 "North" "Completed";
  sale "ORD102" "Dan Young" "Cable" (Some 1) 1 "North" "Completed";
  sale "ORD103" "Dan Young" "Cable" (Some 1) 1 "South" "Completed";
  sale "ORD104" "Dan Young" "Cable" (Some 1) 1 "South" "Completed";
  sale "ORD105" "Dan Young" "Cable" (Some 1) 1 "South" "Completed";
  sale "ORD106" "Dan Young" "Cable" (Some 1) 1 "South" "Completed"
].

(* ================================================================== *)
(** * Lists *)
(* ================================================================== *)

Lemma filter_of_map {A B : Type} (g : A -> B) (p : B -> bool) (l : list A) :
  List.filter p (map g l) = map g (List.filter (fun x => p (g x)) l).
Proof.
  induction l as [|x l IH]; simpl; [reflexivity|].
  destruct (p (g x)); simpl; now rewrite IH.
Qed.

Lemma filter_twice {A : Type} (p q : A -> bool) (l : list A) :
  List.filter p (List.filter q l) = List.filter (fun x => q x && p x) l.
Proof.
  induction l as [|x l IH]; simpl; [reflexivity|].
  destruct (q x); simpl; [destruct (p x)|]; now rewrite IH.
Qed.

Lemma permutation_filter {A : Type} (p : A -> bool) (l l' : list A) :
  Permutation l l' -> Permutation (List.filter p l) (List.filter p l').
Proof.
  induction 1 as [|x l l' _ IH|x y l|l l' l'' _ IH1 _ IH2]; simpl.
  - constructor.
  - destruct (p x); [now constructor | exact IH].
  - destruct (p x), (p y); try reflexivity. apply perm_swap.
  - now transitivity (List.filter p l').
Qed.

Lemma permutation_concat {A : Type} (l l' : list (list A)) :
  Permutation l l' -> Permutation (concat l) (concat l').
Proof.
  induction 1 as [|x l l' _ IH|x y l|l l' l'' _ IH1 _ IH2]; simpl.
  - reflexivity.
  - now apply Permutation_app_head.
  - rewrite !app_assoc. apply Permutation_app_tail, Permutation_app_comm.
  - now transitivity (concat l').
Qed.

Lemma forall_concat {A : Type} (P : A -> Prop) (l : list (list A)) :
  Forall P (concat l) <-> Forall (Forall P) l.
Proof.
  induction l as [|x l IH]; simpl.
  - split; constructor.
  - rewrite Forall_app, IH. split.
    + intros [H1 H2]. now constructor.
    + intro H. inversion H. now split.
Qed.

Lemma sum_Z_cons (x : Z) (l : list Z) : sum_Z (x :: l) = x + sum_Z l.
Proof. reflexivity. Qed.

Lemma filter_none {A : Type} (p : A -> bool) (l : list A) :
  (forall x, In x l -> p x = false) -> List.filter p l = [].
Proof.
  induction l as [|x l IH]; intro H; simpl; [reflexivity|].
  rewrite (H x (or_introl eq_refl)). apply IH. intros y Hy. apply H. now right.
Qed.

(** In a list without repetition, the elements equal to [k] are [k]
    alone. *)
Lemma filter_key_nodup {K : Type} (dec : forall x y : K, {x = y} + {x <> y})
  (k : K) (l : list K) :
  NoDup l -> In k l ->
  List.filter (fun x => if dec x k then true else false) l = [k].
Proof.
  induction 1 as [|x l Hx Hnd IH]; intro Hin; [destruct Hin|]. simpl.
  destruct (dec x k) as [->|Hne].
  - f_equal. apply filter_none. intros y Hy.
    destruct (dec y k) as [->|]; [now elim Hx | reflexivity].
  - destruct Hin as [E|Hin]; [now elim Hne|]. now apply IH.
Qed.

(* ================================================================== *)
(** * Column operators *)
(* ================================================================== *)

Lemma append_empty_r (s : string) : (s ++ EmptyString)%string = s.
Proof. induction s as [|c s IH]; simpl; [reflexivity | now rewrite IH]. Qed.

Lemma concat_lit_empty (c : option string) :
  Spark.concat c (Spark.lit EmptyString) = c.
Proof. destruct c as [s|]; simpl; [now rewrite append_empty_r | reflexivity]. Qed.

Lemma ne_lit_true (c : option string) (s : string) :
  Spark.ne c (Spark.lit s) = Some true <-> exists x, c = Some x /\ x <> s.
Proof.
  destruct c as [x|]; simpl.
  - destruct (String.eqb_spec x s) as [E|N]; simpl; split.
    + discriminate.
    + intros (y & Hy & Hn). inversion Hy; subst. now elim Hn.
    + intros _. now exists x.
    + reflexivity.
  - split; [discriminate | intros (y & Hy & _); discriminate].
Qed.

(* ================================================================== *)
(** * Step 1: cleaning *)
(* ================================================================== *)

Lemma filled_rows (df : DataFrame Row) : Forall2 filled df (df_cleaned_quantity df).
Proof.
  induction df as [|r df IH]; simpl; constructor; [|exact IH].
  unfold filled; simpl. destruct (quantity r); repeat split; reflexivity.
Qed.

Lemma filled_quantity (df : DataFrame Row) (r : Row) :
  In r (df_cleaned_quantity df) -> exists q, quantity r = Some q.
Proof.
  unfold df_cleaned_quantity, na_fill_quantity. rewrite in_map_iff.
  intros (r0 & <- & _). simpl. destruct (quantity r0) as [q|]; simpl; eauto.
Qed.

Lemma filtered_incl (df : DataFrame Row) (r : Row) :
  In r (df_filtered_orders df) -> In r df.
Proof. unfold df_filtered_orders, Spark.filter. rewrite filter_In. tauto. Qed.

Lemma filtered_iff (df : DataFrame Row) (r : Row) :
  In r (df_filtered_orders df)
  <-> In r df /\ exists s, status r = Some s /\ s <> "Cancelled"%string.
Proof.
  unfold df_filtered_orders, Spark.filter. rewrite filter_In.
  rewrite <- ne_lit_true.
  destruct (Spark.ne (status r) (Spark.lit "Cancelled"%string)) as [[|]|];
    intuition discriminate.
Qed.

Lemma filter_subsequence {A : Type} (p : A -> bool) (l : list A) :
  subsequence (List.filter p l) l.
Proof.
  induction l as [|x l IH]; simpl; [constructor|].
  destruct (p x); now constructor.
Qed.

Lemma filtered_count (df : DataFrame Row) :
  (length (df_filtered_orders df)
   + length (with_status "Cancelled" df)
   + length (with_null_status df) = length df)%nat.
Proof.
  unfold df_filtered_orders, Spark.filter, with_status, with_null_status.
  induction df as [|r df IH]; simpl; [reflexivity|].
  destruct (status r) as [s|]; simpl.
  - destruct (String.eqb s "Cancelled"); simpl; lia.
  - lia.
Qed.

Lemma filled_with_status (s : string) (df : DataFrame Row) :
  length (with_status s (df_cleaned_quantity df)) = length (with_status s df).
Proof.
  unfold with_status, df_cleaned_quantity, na_fill_quantity.
  induction df as [|r df IH]; simpl; [reflexivity|].
  destruct (status r) as [x|]; [destruct (String.eqb x s)|]; simpl; lia.
Qed.

Lemma filled_with_null_status (df : DataFrame Row) :
  length (with_null_status (df_cleaned_quantity df)) = length (with_null_status df).
Proof.
  unfold with_null_status, df_cleaned_quantity, na_fill_quantity.
  induction df as [|r df IH]; simpl; [reflexivity|].
  destruct (status r); simpl; lia.
Qed.

(** C3: the null fill keeps the number of rows, sets [quantity] to 0 in
    the rows where it is null and changes no other field of any row; no
    row has a null [quantity] after it, nor after the whole cleaning
    stage. *)
Theorem null_fill_only_fills_quantity (raw : DataFrame Row) :
  length (df_cleaned_quantity raw) = length raw
  /\ Forall2 filled raw (df_cleaned_quantity raw)
  /\ (forall r, In r (df_cleaned_quantity raw) -> quantity r <> None)
  /\ (forall r, In r (cleaning_stage raw) -> quantity r <> None).
Proof.
  split; [apply length_map|]. split; [apply filled_rows|]. split.
  - intros r Hr. destruct (filled_quantity _ _ Hr) as [q Hq]. congruence.
  - intros r Hr. apply filtered_incl in Hr.
    destruct (filled_quantity _ _ Hr) as [q Hq]. congruence.
Qed.

(** X17: on a table where no status is null, the filter drops the rows
    with status "Cancelled" and no other: the cleaned table has the row
    count of the table minus the number of its cancelled rows. *)
Lemma cleaned_count_without_null_status (raw : DataFrame Row) :
  Forall (fun r => status r <> None) raw ->
  (length (cleaning_stage raw) + length (with_status "Cancelled" raw)
   = length raw)%nat.
Proof.
  intro H. unfold cleaning_stage.
  assert (Hn : with_null_status raw = []).
  { unfold with_null_status. induction H as [|r l Hr _ IH]; simpl; [reflexivity|].
    destruct (status r); [exact IH | now elim Hr]. }
  pose proof (filtered_count (df_cleaned_quantity raw)) as Hc.
  rewrite filled_with_status, filled_with_null_status in Hc.
  replace (length (df_cleaned_quantity raw)) with (length raw) in Hc
    by (symmetry; apply length_map).
  rewrite Hn in Hc. simpl in Hc. lia.
Qed.

(** The comparison with "Cancelled" is exact: another spelling is kept. *)
Lemma filter_is_case_sensitive :
  df_filtered_orders [order_cancelled_in_lower_case] = [order_cancelled_in_lower_case].
Proof. reflexivity. Qed.

(** C2, as stated, fails on a row whose status is null: the status is
    not the string "Cancelled", yet the filter drops the row, and the
    cleaned table is one row short of the count the claim gives. *)
Lemma filter_drops_null_status :
  status order_without_status <> Some "Cancelled"%string
  /\ with_status "Cancelled" [order_without_status] = []
  /\ cleaning_stage [order_without_status] = []
  /\ length (cleaning_stage [order_without_status])
     <> (length [order_without_status]
         - length (with_status "Cancelled" [order_without_status]))%nat.
Proof. repeat split; try reflexivity; discriminate. Qed.

(** C2 (amended): the filter keeps exactly the rows whose status is a
    string other than "Cancelled" (compared byte for byte), unchanged and
    in their original relative order; it drops the rows whose status is
    "Cancelled" and the rows whose status is null, so the cleaned table
    has the input's row count minus the count of both; no row of the
    cleaned table has status "Cancelled". *)
Theorem filter_keeps_rows_with_other_status (df raw : DataFrame Row) :
  (forall r, In r (df_filtered_orders df)
             <-> In r df /\ exists s, status r = Some s /\ s <> "Cancelled"%string)
  /\ subsequence (df_filtered_orders df) df
  /\ (length (df_filtered_orders df) + length (with_status "Cancelled" df)
      + length (with_null_status df) = length df)%nat
  /\ (length (cleaning_stage raw) + length (with_status "Cancelled" raw)
      + length (with_null_status raw) = length raw)%nat
  /\ (forall r, In r (cleaning_stage raw) -> status r <> Some "Cancelled"%string).
Proof.
  split; [intro r; apply filtered_iff|].
  split; [apply filter_subsequence|].
  split; [apply filtered_count|].
  split.
  - unfold cleaning_stage.
    rewrite <- (filled_with_status "Cancelled" raw), <- (filled_with_null_status raw).
    rewrite filtered_count. apply length_map.
  - intros r Hr. apply filtered_iff in Hr. destruct Hr as (_ & s & Hs & Hn).
    rewrite Hs. congruence.
Qed.

(** C7: the null fill and the filter on status commute: filtering first
    and filling second gives the table that filling first and filtering
    second gives. *)
Theorem null_fill_commutes_with_filter (raw : DataFrame Row) :
  df_cleaned_quantity (df_filtered_orders raw)
  = df_filtered_orders (df_cleaned_quantity raw).
Proof.
  unfold df_cleaned_quantity, df_filtered_orders, na_fill_quantity, Spark.filter.
  induction raw as [|r raw IH]; simpl; [reflexivity|].
  destruct (Spark.ne (status r) (Spark.lit "Cancelled"%string)) as [[|]|];
    simpl; now rewrite IH.
Qed.

(* ================================================================== *)
(** * Double rounding *)
(* ================================================================== *)

(** Ties go away from zero, on the decimal the double prints as: 1.005
    prints as 1.005 and rounds to 1.01 although the double is below
    1.005. *)
#[warnings="-inexact-float"]
Lemma round_half_up_examples :
  Double.round 2 1.005%float = 1.01%float
  /\ Double.round 2 0.125%float = 0.13%float
  /\ Double.round 2 (-0.125)%float = (-0.13)%float
  /\ Double.round 2 99.99%float = 99.99%float
  /\ Double.round 2 1200.5%float = 1200.5%float
  /\ Double.round 2 0.004%float = 0%float
  /\ Double.round 2 infinity = infinity.
Proof. repeat split; vm_compute; reflexivity. Qed.

(** Rounding to scale 2 yields a number of cents: unless the double is
    NaN or infinite, the result is the double nearest to some
    [cents / 100]. *)
Lemma round2_of_cents (x : float) :
  Double.is_finite x = true -> exists cents, Double.round 2 x = Double.of_cents cents.
Proof.
  unfold Double.is_finite, Double.round.
  destruct (Prim2SF x) as [sg| | |sg m e]; try discriminate; intros _.
  - now exists 0.
  - destruct (Double.to_decimal m e) as [c q].
    destruct (Double.set_scale_half_up 2 c q) as [|r|r].
    + now exists 0.
    + destruct sg; [exists (Zneg r) | exists (Zpos r)]; reflexivity.
    + now exists 0.
Qed.

(** [setScale] rounds half up: when digits are dropped, the count [r] of
    units kept is [floor (c / 10^k + 1/2)]. *)
Lemma set_scale_half_up_spec (scale c q : Z) (k : positive) :
  q + scale = Zneg k ->
  let r := Double.set_scale_half_up scale c q in
  2 * Zpos (10 ^ k) * r <= 2 * c + Zpos (10 ^ k) < 2 * Zpos (10 ^ k) * (r + 1).
Proof.
  intros E r. unfold r, Double.set_scale_half_up. rewrite E.
  set (d := 2 * Zpos (10 ^ k)).
  assert (Hd : 0 < d) by (unfold d; lia).
  pose proof (Z.mul_div_le (2 * c + Zpos (10 ^ k)) d Hd).
  pose proof (Z.mul_succ_div_gt (2 * c + Zpos (10 ^ k)) d Hd).
  lia.
Qed.

(* ================================================================== *)
(** * Step 2: derived columns *)
(* ================================================================== *)

Lemma total_price_column (r : Row) :
  Spark.round (Spark.mul (Spark.cast_double (quantity r)) (price_per_unit r)) 2
  = rounded_product r.
Proof.
  unfold rounded_product. destruct (quantity r), (price_per_unit r); reflexivity.
Qed.

Lemma derived_rows (cleaned : DataFrame Row) :
  derivation_stage cleaned
  = map (fun r => mkNamedRow (mkPricedRow r (rounded_product r)) (customer_name r))
        cleaned.
Proof.
  unfold derivation_stage, df_with_customer_full_name, df_with_total_price.
  rewrite map_map. apply map_ext. intro r.
  cbn [priced_columns sales_columns]. now rewrite concat_lit_empty, total_price_column.
Qed.

(** X18: on a table where no price is null, no total price is null. *)
Lemma total_price_not_null (raw : DataFrame Row) :
  Forall (fun r => price_per_unit r <> None) raw ->
  Forall (fun r : NamedRow => total_price r <> None) (derived_table raw).
Proof.
  intro H. unfold derived_table. rewrite derived_rows. apply Forall_forall.
  intros d Hd. apply in_map_iff in Hd. destruct Hd as (r & <- & Hr).
  cbn [priced_columns total_price]. unfold rounded_product.
  pose proof Hr as Hq. apply filtered_incl, filled_quantity in Hq.
  destruct Hq as [q ->].
  apply filtered_incl in Hr. unfold df_cleaned_quantity, na_fill_quantity in Hr.
  apply in_map_iff in Hr. destruct Hr as (r0 & <- & Hr0).
  rewrite Forall_forall in H. specialize (H r0 Hr0). cbn [price_per_unit] in *.
  destruct (price_per_unit r0); [discriminate | now elim H].
Qed.

(** C1, as stated, fails on an order whose price is null: its quantity
    is not null, yet its total price is. *)
Lemma total_price_null_without_price :
  map (fun r : NamedRow => quantity r) (derived_table [order_without_price]) = [Some 2]
  /\ map (fun r : NamedRow => total_price r) (derived_table [order_without_price]) = [None].
Proof. split; reflexivity. Qed.

(** C1 (amended): in every row of the derived table the quantity is not
    null and [total_price] is [round(quantity * price_per_unit, 2)], the
    product taken on doubles and rounded half up to two decimals;
    [total_price] is null exactly when [price_per_unit] is null, and when
    the product is finite it is the double nearest to a number of
    cents. *)
Theorem total_price_is_rounded_product (raw : DataFrame Row) :
  Forall (fun r : NamedRow =>
            exists q, quantity r = Some q
            /\ total_price r
               = match price_per_unit r with
                 | Some p => Some (Double.round 2 (PrimFloat.mul (Double.of_int q) p))
                 | None => None
                 end
            /\ (total_price r = None <-> price_per_unit r = None)
            /\ (forall p, price_per_unit r = Some p ->
                 Double.is_finite (PrimFloat.mul (Double.of_int q) p) = true ->
                 exists cents, total_price r = Some (Double.of_cents cents)))
         (derived_table raw).
Proof.
  unfold derived_table. rewrite derived_rows. apply Forall_forall.
  intros d Hd. apply in_map_iff in Hd. destruct Hd as (r & <- & Hr).
  apply filtered_incl, filled_quantity in Hr. destruct Hr as [q Hq].
  exists q. cbn [priced_columns sales_columns total_price].
  unfold rounded_product. rewrite Hq.
  split; [reflexivity|]. split; [reflexivity|]. split.
  - destruct (price_per_unit r); split; intro; congruence.
  - intros p Hp Hfin. rewrite Hp.
    destruct (round2_of_cents _ Hfin) as [cents Hc]. exists cents. now rewrite Hc.
Qed.

(** C8: in every row of the table with the [customer_full_name] column,
    and so in every row of the derived table, [customer_full_name] is
    [customer_name] as it is: the concatenation of the name with the
    empty literal. *)
Theorem customer_full_name_is_customer_name
  (priced : DataFrame PricedRow) (cleaned : DataFrame Row) :
  Forall (fun r : NamedRow => customer_full_name r = customer_name r)
         (df_with_customer_full_name priced)
  /\ Forall (fun r : NamedRow => customer_full_name r = customer_name r)
            (derivation_stage cleaned).
Proof.
  assert (H : forall t, Forall (fun r : NamedRow => customer_full_name r = customer_name r)
                               (df_with_customer_full_name t)).
  { intro t. apply Forall_forall. intros d Hd.
    apply in_map_iff in Hd. destruct Hd as (r & <- & _).
    cbn [customer_full_name priced_columns]. apply concat_lit_empty. }
  split; [apply H | apply H].
Qed.

(** C10: the derivation stage only appends its two columns: the derived
    table has the rows of the cleaned table, as many and in the same
    order, with the same value in each of the seven columns of the
    schema. *)
Theorem derivation_keeps_sales_columns (cleaned : DataFrame Row) :
  length (derivation_stage cleaned) = length cleaned
  /\ map (fun d : NamedRow => sales_columns d) (derivation_stage cleaned) = cleaned
  /\ Forall2 same_sales_columns cleaned (derivation_stage cleaned).
Proof.
  rewrite derived_rows. split; [apply length_map|]. split.
  - rewrite map_map. cbn [priced_columns sales_columns]. apply map_id.
  - induction cleaned as [|r l IH]; simpl; constructor; [|exact IH].
    unfold same_sales_columns. cbn [priced_columns sales_columns].
    repeat split; reflexivity.
Qed.

(* ================================================================== *)
(** * The orders on the sort keys *)
(* ================================================================== *)

Lemma ascii_compare_refl (a : ascii) : Ascii.compare a a = Eq.
Proof. apply N.compare_refl. Qed.

Lemma ascii_compare_trans (a b c : ascii) :
  Ascii.compare a b = Lt -> Ascii.compare b c = Lt -> Ascii.compare a c = Lt.
Proof.
  unfold Ascii.compare. rewrite !N.compare_lt_iff. apply N.lt_trans.
Qed.

Lemma string_compare_refl (s : string) : String.compare s s = Eq.
Proof.
  induction s as [|a s IH]; simpl; [reflexivity|].
  now rewrite ascii_compare_refl.
Qed.

Lemma string_compare_trans (s1 s2 s3 : string) :
  String.compare s1 s2 = Lt -> String.compare s2 s3 = Lt ->
  String.compare s1 s3 = Lt.
Proof.
  revert s2 s3.
  induction s1 as [|a s1 IH]; intros [|b s2] [|c s3]; simpl; try easy.
  destruct (Ascii.compare a b) eqn:Eab; try discriminate;
    destruct (Ascii.compare b c) eqn:Ebc; try discriminate.
  - apply Ascii.compare_eq_iff in Eab, Ebc. subst.
    rewrite ascii_compare_refl. apply IH.
  - apply Ascii.compare_eq_iff in Eab. subst. now rewrite Ebc.
  - apply Ascii.compare_eq_iff in Ebc. subst. now rewrite Eab.
  - now rewrite (ascii_compare_trans _ _ _ Eab Ebc).
Qed.

Lemma string_compare_order : total_order String.compare.
Proof.
  constructor.
  - apply String.compare_eq_iff.
  - apply string_compare_refl.
  - apply String.compare_antisym.
  - apply string_compare_trans.
Qed.

(** [String.compare] is the lexicographic order of the bytes. *)
Lemma string_compare_lt (s1 s2 : string) :
  String.compare s1 s2 = Lt <-> bytes_lt s1 s2.
Proof.
  split.
  - revert s2. induction s1 as [|a s1 IH]; intros [|b s2]; simpl; try discriminate.
    + constructor.
    + destruct (Ascii.compare a b) eqn:E; try discriminate.
      * apply Ascii.compare_eq_iff in E. subst. intro H. apply bytes_lt_tail. now apply IH.
      * intros _. apply bytes_lt_head. now apply N.compare_lt_iff.
  - induction 1 as [c s|c1 c2 t1 t2 H|c t1 t2 _ IH]; simpl.
    + reflexivity.
    + apply N.compare_lt_iff in H. unfold Ascii.compare. now rewrite H.
    + now rewrite ascii_compare_refl.
Qed.

Lemma option_compare_order {A : Type} (cmp : A -> A -> comparison) :
  total_order cmp -> total_order (option_compare cmp).
Proof.
  intros [Heq Hrefl Hanti Htrans]. constructor.
  - intros [a|] [b|]; simpl; try easy. intro H. now rewrite (Heq _ _ H).
  - intros [a|]; simpl; auto.
  - intros [a|] [b|]; simpl; auto.
  - intros [a|] [b|] [c|]; simpl; try easy. apply Htrans.
Qed.

Lemma pair_compare_order {A B : Type} (cmpA : A -> A -> comparison)
  (cmpB : B -> B -> comparison) :
  total_order cmpA -> total_order cmpB -> total_order (pair_compare cmpA cmpB).
Proof.
  intros [HeqA HreflA HantiA HtransA] [HeqB HreflB HantiB HtransB].
  constructor; unfold pair_compare.
  - intros [a1 b1] [a2 b2]; simpl.
    destruct (cmpA a1 a2) eqn:E; try discriminate.
    intro H. now rewrite (HeqA _ _ E), (HeqB _ _ H).
  - intros [a b]; simpl. now rewrite HreflA.
  - intros [a1 b1] [a2 b2]; simpl. rewrite (HantiA a1 a2).
    destruct (cmpA a2 a1); simpl; auto.
  - intros [a1 b1] [a2 b2] [a3 b3]; simpl.
    destruct (cmpA a1 a2) eqn:E12; try discriminate;
      destruct (cmpA a2 a3) eqn:E23; try discriminate; intros H12 H23.
    + apply HeqA in E12, E23. subst. rewrite HreflA. eauto.
    + apply HeqA in E12. subst. now rewrite E23.
    + apply HeqA in E23. subst. now rewrite E12.
    + now rewrite (HtransA _ _ _ E12 E23).
Qed.

Lemma region_compare_order : total_order region_compare.
Proof. apply option_compare_order, string_compare_order. Qed.

Lemma region_status_compare_order : total_order region_status_compare.
Proof.
  apply pair_compare_order; apply option_compare_order, string_compare_order.
Qed.

(* ================================================================== *)
(** * [orderBy] *)
(* ================================================================== *)

Section OrderByFacts.
Context {R K : Type}.
Variable compare : K -> K -> comparison.
Variable key : R -> K.
Hypothesis compare_order : total_order compare.

Lemma insert_permutation (r : R) (l : list R) :
  Permutation (Spark.insert compare key r l) (r :: l).
Proof.
  induction l as [|h t IH]; simpl; [reflexivity|].
  destruct (Spark.key_leb compare key r h); [reflexivity|].
  rewrite IH. apply perm_swap.
Qed.

Lemma orderBy_permutation (df : DataFrame R) :
  Permutation (Spark.orderBy compare key df) df.
Proof.
  induction df as [|r df IH]; simpl; [reflexivity|].
  rewrite insert_permutation. now constructor.
Qed.

Lemma insert_strictly_sorted (r : R) (l : list R) :
  ~ In (key r) (map key l) ->
  StronglySorted (Spark.key_lt compare key) l ->
  StronglySorted (Spark.key_lt compare key) (Spark.insert compare key r l).
Proof.
  destruct compare_order as [Heq Hrefl Hanti Htrans].
  induction l as [|h t IH]; intros Hnew Hs; simpl.
  - repeat constructor.
  - apply StronglySorted_inv in Hs. destruct Hs as [Ht Hh].
    assert (Hne : key r <> key h) by (intro E; apply Hnew; left; now rewrite E).
    unfold Spark.key_leb. destruct (compare (key r) (key h)) eqn:E.
    + now apply Heq in E.
    + constructor; [now constructor|]. constructor; [exact E|].
      eapply Forall_impl; [|exact Hh]. intros x Hx. exact (Htrans _ _ _ E Hx).
    + constructor.
      * apply IH; [|exact Ht]. intro Hin. apply Hnew. now right.
      * apply Forall_forall. intros x Hx.
        apply (Permutation_in _ (insert_permutation r t)) in Hx.
        destruct Hx as [<-|Hx].
        -- unfold Spark.key_lt. rewrite Hanti, E. reflexivity.
        -- rewrite Forall_forall in Hh. now apply Hh.
Qed.

(** Sorting rows whose keys are all different puts them in strictly
    ascending order of key. *)
Lemma orderBy_strictly_sorted (df : DataFrame R) :
  NoDup (map key df) -> StronglySorted (Spark.key_lt compare key) (Spark.orderBy compare key df).
Proof.
  induction df as [|r df IH]; simpl; intro Hnd; [constructor|].
  inversion Hnd as [|k ks Hnotin Hnd']; subst.
  apply insert_strictly_sorted; [|now apply IH].
  intro Hin. apply Hnotin.
  eapply Permutation_in; [|exact Hin].
  apply Permutation_map, orderBy_permutation.
Qed.
(** A table has one arrangement in strictly ascending order of key. *)
Lemma strictly_sorted_unique (l l' : list R) :
  StronglySorted (Spark.key_lt compare key) l ->
  StronglySorted (Spark.key_lt compare key) l' ->
  Permutation l l' -> l = l'.
Proof.
  destruct compare_order as [Heq Hrefl Hanti Htrans].
  revert l'. induction l as [|a t IH]; intros l' Hs Hs' Hp.
  - now apply Permutation_nil in Hp.
  - destruct l' as [|b t']; [now apply Permutation_sym, Permutation_nil in Hp|].
    apply StronglySorted_inv in Hs, Hs'.
    destruct Hs as [Ht Ha], Hs' as [Ht' Hb].
    rewrite Forall_forall in Ha, Hb.
    assert (E : a = b).
    { assert (Hin : In a (b :: t')) by (apply (Permutation_in _ Hp); now left).
      assert (Hin' : In b (a :: t))
        by (apply (Permutation_in _ (Permutation_sym Hp)); now left).
      destruct Hin as [E|Hin]; [now symmetry|].
      destruct Hin' as [E|Hin']; [exact E|].
      specialize (Ha b Hin'). specialize (Hb a Hin).
      unfold Spark.key_lt in Ha, Hb. rewrite Hanti, Hb in Ha. discriminate. }
    subst b. f_equal. apply IH; [exact Ht | exact Ht' |].
    now apply Permutation_cons_inv in Hp.
Qed.

(** The sorted table does not depend on the order the rows come in, for
    instance the order in which a grouping yields its groups. *)
Lemma orderBy_any_order (df df' : DataFrame R) :
  NoDup (map key df) -> Permutation df df' ->
  Spark.orderBy compare key df = Spark.orderBy compare key df'.
Proof.
  intros Hnd Hp. apply strictly_sorted_unique.
  - now apply orderBy_strictly_sorted.
  - apply orderBy_strictly_sorted.
    eapply Permutation_NoDup; [|exact Hnd]. now apply Permutation_map.
  - rewrite !orderBy_permutation. exact Hp.
Qed.
End OrderByFacts.

(* ================================================================== *)
(** * [groupBy] and the aggregates *)
(* ================================================================== *)

Section GroupByFacts.
Context {R K : Type}.
Variable K_eq_dec : forall x y : K, {x = y} + {x <> y}.
Variable key : R -> K.

Lemma groupBy_keys (df : DataFrame R) :
  map fst (Spark.groupBy K_eq_dec key df) = nodup K_eq_dec (map key df).
Proof. unfold Spark.groupBy. rewrite map_map. simpl. apply map_id. Qed.

Lemma groupBy_rows (df : DataFrame R) :
  Forall (fun g => snd g = List.filter (Spark.has_key K_eq_dec key (fst g)) df)
         (Spark.groupBy K_eq_dec key df).
Proof.
  unfold Spark.groupBy. apply Forall_forall. intros g Hg.
  apply in_map_iff in Hg. now destruct Hg as (k & <- & _).
Qed.

(** No group is empty: a key is the key of a row. *)
Lemma group_not_empty (df : DataFrame R) (k : K) :
  In k (map key df) -> List.filter (Spark.has_key K_eq_dec key k) df <> [].
Proof.
  intro Hk. apply in_map_iff in Hk. destruct Hk as (r & Hr & Hin).
  assert (H : In r (List.filter (Spark.has_key K_eq_dec key k) df)).
  { apply filter_In. split; [exact Hin|]. unfold Spark.has_key.
    now destruct (K_eq_dec (key r) k). }
  intro E. now rewrite E in H.
Qed.

Lemma weight_of_none (w : R -> Z) (df : DataFrame R) :
  sum_Z (map w (List.filter (fun _ => false) df)) = 0.
Proof. induction df; simpl; auto. Qed.

Lemma weight_of_disjoint (w : R -> Z) (p q : R -> bool) (df : DataFrame R) :
  (forall r, p r = true -> q r = false) ->
  sum_Z (map w (List.filter (fun r => p r || q r) df))
  = sum_Z (map w (List.filter p df)) + sum_Z (map w (List.filter q df)).
Proof.
  intro Hpq. induction df as [|r df IH]; simpl; [reflexivity|].
  destruct (p r) eqn:Ep; simpl.
  - rewrite (Hpq r Ep). unfold sum_Z in *. simpl. lia.
  - destruct (q r); unfold sum_Z in *; simpl; lia.
Qed.

(** The groups split the table: a weight summed group by group is the
    weight summed over the rows whose key is among the groups' keys. *)
Lemma weight_by_group (w : R -> Z) (ks : list K) (df : DataFrame R) :
  NoDup ks ->
  sum_Z (map (fun k => sum_Z (map w (List.filter (Spark.has_key K_eq_dec key k) df))) ks)
  = sum_Z (map w (List.filter
                    (fun r => existsb (fun k => Spark.has_key K_eq_dec key k r) ks) df)).
Proof.
  induction 1 as [|k ks Hnotin Hnd IH]; simpl.
  - now rewrite weight_of_none.
  - rewrite weight_of_disjoint.
    + unfold sum_Z at 1. simpl. now rewrite <- IH.
    + intros r Hk. apply not_true_is_false. intro Hex.
      apply existsb_exists in Hex. destruct Hex as (k' & Hin & Hk').
      unfold Spark.has_key in Hk, Hk'.
      destruct (K_eq_dec (key r) k); [|discriminate].
      destruct (K_eq_dec (key r) k'); [|discriminate].
      apply Hnotin. congruence.
Qed.

Lemma weight_of_groups (w : R -> Z) (df : DataFrame R) :
  sum_Z (map (fun g => sum_Z (map w (snd g))) (Spark.groupBy K_eq_dec key df))
  = sum_Z (map w df).
Proof.
  unfold Spark.groupBy. rewrite map_map. simpl.
  rewrite weight_by_group by apply NoDup_nodup.
  f_equal. f_equal. apply forallb_filter_id. apply forallb_forall.
  intros r Hr. apply existsb_exists. exists (key r). split.
  - apply nodup_In. now apply in_map.
  - unfold Spark.has_key. now destruct (K_eq_dec (key r) (key r)).
Qed.
End GroupByFacts.

Lemma sum_Z_permutation (l l' : list Z) : Permutation l l' -> sum_Z l = sum_Z l'.
Proof. induction 1; rewrite ?sum_Z_cons; lia. Qed.

Lemma count_update_fold {A : Type} (values : list (option A)) (n : Z) :
  fold_left Spark.count_update values n
  = n + sum_Z (map (fun v => match v with Some _ => 1 | None => 0 end) values).
Proof.
  revert n. induction values as [|v values IH]; intro n.
  - simpl. unfold sum_Z. simpl. lia.
  - cbn [fold_left map]. rewrite IH, sum_Z_cons.
    destruct v; unfold Spark.count_update; lia.
Qed.

(** [count(c)] is the number of rows where [c] is not null. *)
Lemma count_weight {A R : Type} (col : R -> option A) (rows : list R) :
  Spark.count (map col rows)
  = sum_Z (map (fun r => match col r with Some _ => 1 | None => 0 end) rows).
Proof. unfold Spark.count. rewrite count_update_fold, map_map. reflexivity. Qed.

Lemma weight_length {R : Type} (p : R -> bool) (rows : list R) :
  sum_Z (map (fun r => if p r then 1 else 0) rows)
  = Z.of_nat (length (List.filter p rows)).
Proof.
  induction rows as [|r rows IH]; [reflexivity|].
  cbn [map List.filter]. rewrite sum_Z_cons, IH.
  destruct (p r); cbn [length]; lia.
Qed.

(* ================================================================== *)
(** * Plans *)
(* ================================================================== *)

Lemma cut_concat {A : Type} (sizes : list nat) (rows : list A) :
  concat (Spark.cut sizes rows) = rows.
Proof.
  revert rows. induction sizes as [|n sizes IH]; intro rows; simpl.
  - apply app_nil_r.
  - rewrite IH. apply firstn_skipn.
Qed.

Lemma arrange_permutation {A : Type} (positions : list nat) (l : list A) :
  Permutation (Spark.arrange positions l) l.
Proof.
  revert l. induction positions as [|i positions IH]; intro l; simpl; [reflexivity|].
  destruct (skipn i l) as [|x rest] eqn:E; [reflexivity|].
  rewrite IH. rewrite <- (firstn_skipn i l) at 2. rewrite E.
  apply Permutation_middle.
Qed.

(** What a plan does: it cuts the rows into runs and lists the runs in
    some order. *)
Lemma run_plan_runs {A : Type} (plan : Spark.Plan) (rows : list A) :
  exists slices,
    concat slices = rows /\ Permutation slices (Spark.run_plan plan rows).
Proof.
  exists (Spark.cut (Spark.cuts plan) rows). split; [apply cut_concat|].
  symmetry. apply arrange_permutation.
Qed.

Lemma cut_complete {A : Type} (slices : list (list A)) :
  slices <> [] ->
  exists sizes, Spark.cut sizes (concat slices) = slices.
Proof.
  induction slices as [|s rest IH]; [congruence|]. intros _.
  destruct rest as [|s' rest'].
  - exists []. simpl. now rewrite app_nil_r.
  - destruct IH as [sizes Hs]; [discriminate|].
    exists (length s :: sizes). cbn [Spark.cut concat].
    rewrite firstn_app, Nat.sub_diag, firstn_all, firstn_O, app_nil_r.
    rewrite skipn_app, Nat.sub_diag, skipn_all, skipn_O. cbn [app].
    f_equal. exact Hs.
Qed.

Lemma arrange_complete {A : Type} (l l' : list A) :
  Permutation l l' -> exists positions, Spark.arrange positions l = l'.
Proof.
  revert l. induction l' as [|x t IH]; intros l Hp.
  - apply Permutation_sym, Permutation_nil in Hp. subst. now exists [].
  - assert (Hin : In x l) by (apply (Permutation_in _ (Permutation_sym Hp)); now left).
    apply in_split in Hin. destruct Hin as (l1 & l2 & ->).
    apply Permutation_sym, Permutation_cons_app_inv, Permutation_sym in Hp.
    destruct (IH _ Hp) as [positions Hpos].
    exists (length l1 :: positions). cbn [Spark.arrange].
    rewrite skipn_app, Nat.sub_diag, skipn_all, skipn_O. cbn [app].
    rewrite firstn_app, Nat.sub_diag, firstn_all, firstn_O, app_nil_r.
    now rewrite Hpos.
Qed.

(** Every way to cut the rows into runs and to order the runs is the
    run of some plan. *)
Lemma plan_complete {A : Type} (rows : list A) (slices chunks : list (list A)) :
  slices <> [] -> concat slices = rows -> Permutation slices chunks ->
  exists plan, Spark.run_plan plan rows = chunks.
Proof.
  intros Hne <- Hp.
  destruct (cut_complete slices Hne) as [sizes Hs].
  destruct (arrange_complete _ _ Hp) as [positions Hpos].
  exists (Spark.mkPlan sizes positions). unfold Spark.run_plan. cbn. now rewrite Hs.
Qed.

Lemma run_plan_rows {A : Type} (plan : Spark.Plan) (rows : list A) :
  Permutation (concat (Spark.run_plan plan rows)) rows.
Proof.
  destruct (run_plan_runs plan rows) as (slices & <- & Hp).
  symmetry. now apply permutation_concat.
Qed.

Lemma sum_Z_app (l l' : list Z) : sum_Z (l ++ l') = sum_Z l + sum_Z l'.
Proof.
  induction l as [|z l IH]; [reflexivity|].
  cbn [app]. rewrite !sum_Z_cons, IH. lia.
Qed.

(** A count does not depend on the plan: the counts of the partitions,
    added in any order, make the count over the rows in table order. *)
Lemma count_any_plan {A : Type} (plan : Spark.Plan) (values : list (option A)) :
  sum_Z (map Spark.count (Spark.run_plan plan values)) = Spark.count values.
Proof.
  set (w := fun v : option A => match v with Some _ => 1 | None => 0 end).
  assert (Hc : forall l : list (option A), Spark.count l = sum_Z (map w l)).
  { intro l. rewrite <- (map_id l) at 1. apply (count_weight (fun v => v)). }
  rewrite Hc, <- (sum_Z_permutation _ _ (Permutation_map w (run_plan_rows plan values))).
  induction (Spark.run_plan plan values) as [|c chunks IH]; [reflexivity|].
  cbn [map concat]. rewrite sum_Z_cons, map_app, sum_Z_app, IH, Hc. reflexivity.
Qed.

(* ================================================================== *)
(** * Sums *)
(* ================================================================== *)

Lemma sum_from_some (values : list (option float)) (a : float) :
  exists b, fold_left Spark.sum_update values (Some a) = Some b.
Proof.
  revert a. induction values as [|v values IH]; intro a; simpl; [now exists a|].
  destruct v as [x|]; apply IH.
Qed.

Lemma sum_buffer_null_iff (values : list (option float)) :
  Spark.sum_buffer values = None <-> Forall (fun v => v = None) values.
Proof.
  unfold Spark.sum_buffer. induction values as [|v values IH]; simpl.
  - split; [constructor | reflexivity].
  - destruct v as [x|]; simpl.
    + split.
      * intro H. destruct (sum_from_some values (PrimFloat.add PrimFloat.zero x)) as [b Hb].
        rewrite Hb in H. discriminate.
      * intro H. inversion H. discriminate.
    + rewrite IH. split; [now constructor | intro H; now inversion H].
Qed.

(** [sum] is null exactly on a column of nulls, whatever the plan. *)
Lemma sum_null_iff (plan : Spark.Plan) (values : list (option float)) :
  Spark.sum plan values = None <-> Forall (fun v => v = None) values.
Proof.
  unfold Spark.sum. rewrite sum_buffer_null_iff, Forall_map.
  transitivity (Forall (Forall (fun v : option float => v = None))
                       (Spark.run_plan plan values)).
  - rewrite !Forall_forall. split; intros H chunk Hc;
      apply sum_buffer_null_iff; now apply H.
  - rewrite <- forall_concat. split; apply Permutation_Forall.
    + apply run_plan_rows.
    + symmetry. apply run_plan_rows.
Qed.

Lemma present_app (l1 l2 : list (option float)) :
  present (l1 ++ l2) = present l1 ++ present l2.
Proof. apply flat_map_app. Qed.

Lemma present_permutation (l l' : list (option float)) :
  Permutation l l' -> Permutation (present l) (present l').
Proof.
  induction 1 as [|x l l' _ IH|x y l|l l' l'' _ IH1 _ IH2]; simpl.
  - reflexivity.
  - now apply Permutation_app_head.
  - rewrite !app_assoc. apply Permutation_app_tail, Permutation_app_comm.
  - now transitivity (present l').
Qed.

Lemma holds_update (seen : list float) (buf : option float)
  (more : list float) (value : option float) :
  holds seen buf -> holds more value ->
  holds (seen ++ more) (Spark.sum_update buf value).
Proof.
  destruct value as [x|]; simpl.
  - intros Hb [Hne Hx]. split.
    + intro E. apply app_eq_nil in E. now destruct E.
    + destruct buf as [s|]; simpl in Hb.
      * apply adds_up_both; [apply Hb | exact Hx].
      * subst seen. apply (adds_up_both [] more); [constructor | exact Hx].
  - intros Hb ->. now rewrite app_nil_r.
Qed.

Lemma holds_fold (values : list (option float)) (seen : list float)
  (buf : option float) :
  holds seen buf ->
  holds (seen ++ present values) (fold_left Spark.sum_update values buf).
Proof.
  revert seen buf. induction values as [|v values IH]; intros seen buf Hb; simpl.
  - now rewrite app_nil_r.
  - rewrite app_assoc. apply IH. apply holds_update; [exact Hb|].
    destruct v as [x|]; simpl; [|reflexivity].
    split; [discriminate | constructor].
Qed.

Lemma holds_buffer (values : list (option float)) :
  holds (present values) (Spark.sum_buffer values).
Proof. apply (holds_fold values [] None). reflexivity. Qed.

Lemma holds_merge (chunks : list (list (option float))) (seen : list float)
  (buf : option float) :
  holds seen buf ->
  holds (seen ++ present (concat chunks))
        (fold_left Spark.sum_update (map Spark.sum_buffer chunks) buf).
Proof.
  revert seen buf. induction chunks as [|c chunks IH]; intros seen buf Hb; simpl.
  - now rewrite app_nil_r.
  - rewrite present_app, app_assoc. apply IH.
    apply holds_update; [exact Hb | apply holds_buffer].
Qed.

(** Whatever the plan, a sum that is not null is a sum of the values
    present. *)
Lemma sum_adds_up (plan : Spark.Plan) (values : list (option float)) (s : float) :
  Spark.sum plan values = Some s ->
  present values <> [] /\ adds_up (present values) s.
Proof.
  intro H. pose proof (holds_merge (Spark.run_plan plan values) [] None eq_refl) as Hm.
  change (fold_left Spark.sum_update
            (map Spark.sum_buffer (Spark.run_plan plan values)) None)
    with (Spark.sum plan values) in Hm.
  rewrite H in Hm. simpl in Hm.
  destruct Hm as [Hne Hs].
  pose proof (present_permutation _ _ (run_plan_rows plan values)) as Hp.
  split.
  - intro E. rewrite E in Hp. apply Permutation_sym, Permutation_nil in Hp. congruence.
  - now apply (adds_up_reordered _ _ _ Hp).
Qed.

(* ================================================================== *)
(** * Rounding to cents *)
(* ================================================================== *)

Lemma scaled_floor_nonneg (n d : positive) (q : Z) : 0 <= Double.scaled_floor n d q.
Proof.
  unfold Double.scaled_floor. destruct (Double.decimal_ratio 1 q) as [pn pd].
  apply Z.div_pos; lia.
Qed.

Lemma nearest_nonneg (n d : positive) (q : Z) : 0 <= Double.nearest n d q.
Proof.
  unfold Double.nearest. pose proof (scaled_floor_nonneg n d q).
  destruct (Double.midpoint_compare n d (Double.scaled_floor n d q) q);
    [destruct (Z.even _)| |]; lia.
Qed.

Lemma shortest_nonneg (fuel : nat) (x : float) (n d : positive) (q : Z) :
  0 <= fst (Double.shortest fuel x n d q).
Proof.
  revert q. induction fuel as [|fuel IH]; intro q; simpl.
  - apply nearest_nonneg.
  - unfold Double.candidate.
    pose proof (scaled_floor_nonneg n d q). pose proof (nearest_nonneg n d q).
    destruct (Double.round_trips x (Double.scaled_floor n d q) q),
             (Double.round_trips x (Double.scaled_floor n d q + 1) q);
      simpl; try lia. apply IH.
Qed.

Lemma to_decimal_nonneg (m : positive) (e : Z) : 0 <= fst (Double.to_decimal m e).
Proof.
  unfold Double.to_decimal. destruct (Double.exact_ratio m e) as [n d].
  apply shortest_nonneg.
Qed.

Lemma set_scale_half_up_cents (c q : Z) :
  0 <= c ->
  half_up_cents c q (Double.set_scale_half_up 2 c q)
  /\ 0 <= Double.set_scale_half_up 2 c q.
Proof.
  intro Hc. unfold half_up_cents, Double.set_scale_half_up.
  destruct (q + 2) as [|k|k] eqn:E.
  - split; [reflexivity | lia].
  - split; [reflexivity|]. apply Z.mul_nonneg_nonneg; [exact Hc|].
    apply Z.pow_nonneg. lia.
  - set (d := 2 * Zpos (10 ^ k)).
    assert (Hd : 0 < d) by (unfold d; lia).
    pose proof (Z.mul_div_le (2 * c + Zpos (10 ^ k)) d Hd).
    pose proof (Z.mul_succ_div_gt (2 * c + Zpos (10 ^ k)) d Hd).
    split; [lia|]. apply Z.div_pos; lia.
Qed.

(** [round] to scale 2 rounds to cents, half up. *)
Lemma round_to_cents (x : float) : rounded_to_cents x (Double.round 2 x).
Proof.
  unfold rounded_to_cents, Double.round.
  destruct (Prim2SF x) as [sg|sg| |sg m e]; try reflexivity.
  pose proof (to_decimal_nonneg m e) as Hc.
  destruct (Double.to_decimal m e) as [c q]. cbn [fst snd] in *.
  destruct (set_scale_half_up_cents c q Hc) as [Hr Hpos].
  exists (Double.set_scale_half_up 2 c q). split; [exact Hr|]. split; [exact Hpos|].
  destruct (Double.set_scale_half_up 2 c q) as [|r|r]; [now destruct sg| |lia].
  now destruct sg.
Qed.

(* ================================================================== *)
(** * A sum over every plan *)
(* ================================================================== *)

Lemma inserts_middle {A : Type} (x : A) (l1 l2 : list A) :
  In (l1 ++ x :: l2) (inserts x (l1 ++ l2)).
Proof.
  induction l1 as [|y l1 IH]; simpl.
  - destruct l2; now left.
  - right. now apply in_map.
Qed.

Lemma orders_complete {A : Type} (l l' : list A) :
  Permutation l l' -> In l' (orders l).
Proof.
  revert l'. induction l as [|x t IH]; intros l' Hp.
  - apply Permutation_nil in Hp. subst. now left.
  - assert (Hin : In x l') by (apply (Permutation_in _ Hp); now left).
    apply in_split in Hin. destruct Hin as (l1 & l2 & ->).
    apply Permutation_cons_app_inv in Hp.
    simpl. apply in_flat_map. exists (l1 ++ l2). split; [now apply IH|].
    apply inserts_middle.
Qed.

Lemma runs_longer {A : Type} (s : list A) (rest : list (list A)) :
  s <> [] -> In rest (runs (concat rest)) -> In (s :: rest) (runs (s ++ concat rest)).
Proof.
  intros Hs Hrest. induction s as [|x s IH]; [congruence|].
  cbn [app runs]. apply in_flat_map. destruct s as [|y s].
  - exists rest. split; [exact Hrest | now left].
  - exists ((y :: s) :: rest). split; [apply IH; discriminate|].
    right. now left.
Qed.

Lemma runs_complete {A : Type} (slices : list (list A)) :
  forallb not_empty slices = true -> In slices (runs (concat slices)).
Proof.
  induction slices as [|s rest IH]; [now left|].
  cbn [forallb]. intro H. apply andb_true_iff in H. destruct H as [Hs Hrest].
  cbn [concat]. apply runs_longer; [|now apply IH].
  destruct s; [discriminate | congruence].
Qed.

Lemma concat_not_empty {A : Type} (l : list (list A)) :
  concat (List.filter not_empty l) = concat l.
Proof.
  induction l as [|x l IH]; [reflexivity|].
  destruct x; simpl; now rewrite IH.
Qed.

Lemma filter_forallb {A : Type} (p : A -> bool) (l : list A) :
  forallb p (List.filter p l) = true.
Proof.
  apply forallb_forall. intros x Hx. now apply filter_In in Hx.
Qed.

Lemma merge_not_empty (chunks : list (list (option float))) (buf : option float) :
  fold_left Spark.sum_update (map Spark.sum_buffer chunks) buf
  = fold_left Spark.sum_update
      (map Spark.sum_buffer (List.filter not_empty chunks)) buf.
Proof.
  revert buf. induction chunks as [|c chunks IH]; intro buf; [reflexivity|].
  destruct c as [|v c]; cbn [List.filter not_empty map fold_left]; apply IH.
Qed.

(** What holds of the merged partial sums for every way to cut the
    values into runs and to order the runs holds of the sum for every
    plan. *)
Lemma sum_any_plan (P : option float -> Prop) (values : list (option float)) :
  Forall (fun slices =>
            Forall (fun chunks => P (Spark.sum_buffer (map Spark.sum_buffer chunks)))
                   (orders slices))
         (runs values) ->
  forall plan, P (Spark.sum plan values).
Proof.
  intros H plan. unfold Spark.sum, Spark.sum_buffer at 1.
  rewrite merge_not_empty.
  destruct (run_plan_runs plan values) as (slices & Hc & Hp).
  rewrite Forall_forall in H.
  specialize (H (List.filter not_empty slices)).
  rewrite Forall_forall in H. apply H.
  - rewrite <- Hc, <- concat_not_empty. apply runs_complete, filter_forallb.
  - apply orders_complete. now apply permutation_filter.
Qed.

(* ================================================================== *)
(** * Step 3: summaries *)
(* ================================================================== *)

Lemma weight_with_order_id (rows : list NamedRow) :
  sum_Z (map (fun r : NamedRow => match order_id r with Some _ => 1 | None => 0 end) rows)
  = Z.of_nat (length (with_order_id rows)).
Proof.
  unfold with_order_id. rewrite <- weight_length. f_equal.
  apply map_ext. intro r. now destruct (order_id r).
Qed.

Lemma in_region_group (k : option string) (df : DataFrame NamedRow) :
  List.filter (Spark.has_key option_string_eq_dec (fun r : NamedRow => region r) k) df
  = in_region k df.
Proof. reflexivity. Qed.

Lemma in_region_status_group (k s : option string) (df : DataFrame NamedRow) :
  List.filter
    (Spark.has_key region_status_eq_dec (fun r : NamedRow => (region r, status r)) (k, s)) df
  = in_region_status k s df.
Proof.
  unfold in_region_status. apply filter_ext. intro r. unfold Spark.has_key.
  destruct (region_status_eq_dec (region r, status r) (k, s)) as [E|N].
  - injection E as Ek Es. rewrite Ek, Es.
    destruct (option_string_eq_dec k k); [|congruence].
    destruct (option_string_eq_dec s s); congruence.
  - destruct (option_string_eq_dec (region r) k); [|reflexivity].
    destruct (option_string_eq_dec (status r) s); [|reflexivity].
    elim N. congruence.
Qed.

Lemma agg_keys {R K V : Type} (f : K -> list R -> V) (key_of : V -> K)
  (groups : list (K * list R)) :
  (forall k rows, key_of (f k rows) = k) ->
  map key_of (Spark.agg f groups) = map fst groups.
Proof.
  intro H. unfold Spark.agg. rewrite map_map. apply map_ext. intro g. apply H.
Qed.

(** X15: the summary by region does not depend on the order in which
    the grouping yields its groups. *)
Lemma sales_by_region_any_group_order (plan : option string -> Spark.Plan)
  (df : DataFrame NamedRow) (groups : list (option string * list NamedRow)) :
  Permutation (Spark.groupBy option_string_eq_dec (fun r : NamedRow => region r) df)
              groups ->
  df_sales_by_region plan df
  = Spark.orderBy region_compare sales_region
      (Spark.agg
         (fun k rows =>
            mkRegionSales k
              (Spark.round
                 (Spark.sum (plan k) (map (fun r : NamedRow => total_price r) rows)) 2))
         groups).
Proof.
  intro Hp. unfold df_sales_by_region.
  apply (orderBy_any_order _ _ region_compare_order).
  - rewrite agg_keys by reflexivity. rewrite groupBy_keys. apply NoDup_nodup.
  - unfold Spark.agg. now apply Permutation_map.
Qed.

(** The rows of the summary by region, before they are sorted. *)
Lemma sales_by_region_rows (plan : option string -> Spark.Plan)
  (df : DataFrame NamedRow) :
  Permutation
    (df_sales_by_region plan df)
    (map (fun k =>
            mkRegionSales k
              (Spark.round
                 (Spark.sum (plan k)
                    (map (fun r : NamedRow => total_price r) (in_region k df))) 2))
         (nodup option_string_eq_dec (map (fun r : NamedRow => region r) df))).
Proof.
  unfold df_sales_by_region. rewrite orderBy_permutation.
  unfold Spark.agg, Spark.groupBy. rewrite map_map. reflexivity.
Qed.

(** The row of a region in the summary by region. *)
Lemma sales_of_region_row (plan : option string -> Spark.Plan)
  (df : DataFrame NamedRow) (k : option string) :
  In k (map (fun r : NamedRow => region r) df) ->
  sales_of_region k (df_sales_by_region plan df)
  = [ mkRegionSales k
        (Spark.round
           (Spark.sum (plan k)
              (map (fun r : NamedRow => total_price r) (in_region k df))) 2) ].
Proof.
  intro Hk. apply Permutation_length_1_inv. symmetry.
  unfold sales_of_region.
  rewrite (permutation_filter _ _ _ (sales_by_region_rows plan df)).
  rewrite filter_of_map. cbn [sales_region].
  rewrite filter_key_nodup; [reflexivity | apply NoDup_nodup | now apply nodup_In].
Qed.

(** Two plans that give every region the same sum give the same
    summary. *)
Lemma sales_by_region_same_sums (plan plan' : option string -> Spark.Plan)
  (df : DataFrame NamedRow) :
  (forall k, In k (map (fun r : NamedRow => region r) df) ->
             Spark.sum (plan k)
               (map (fun r : NamedRow => total_price r) (in_region k df))
             = Spark.sum (plan' k)
                 (map (fun r : NamedRow => total_price r) (in_region k df))) ->
  df_sales_by_region plan df = df_sales_by_region plan' df.
Proof.
  intro H. unfold df_sales_by_region, Spark.agg, Spark.groupBy. f_equal.
  rewrite !map_map. apply map_ext_in. intros k Hk. cbn [fst snd].
  apply nodup_In in Hk. rewrite !in_region_group. now rewrite (H k Hk).
Qed.

(** The rounded sum of a column is null when the column holds only
    nulls, and else a sum of the values present, rounded to cents. *)
Lemma rounded_sum (plan : Spark.Plan) (values : list (option float)) :
  rounded_sum_of values (Spark.round (Spark.sum plan values) 2).
Proof.
  unfold rounded_sum_of. destruct (Spark.sum plan values) as [s|] eqn:E.
  - right. exists s, (Double.round 2 s).
    destruct (sum_adds_up _ _ _ E) as [Hne Hs].
    repeat split; try assumption. apply round_to_cents.
  - left. split; [now apply (sum_null_iff plan) | reflexivity].
Qed.


(** X16: the summary by region and status does not depend on the order
    in which the grouping yields its groups. *)
Lemma orders_by_status_region_any_group_order (df : DataFrame NamedRow)
  (groups : list (option string * option string * list NamedRow)) :
  Permutation
    (Spark.groupBy region_status_eq_dec (fun r : NamedRow => (region r, status r)) df)
    groups ->
  df_orders_by_status_region df
  = Spark.orderBy region_status_compare
      (fun o => (orders_region o, orders_status o))
      (Spark.agg
         (fun k rows =>
            mkRegionStatusOrders (fst k) (snd k)
              (Spark.count (map (fun r : NamedRow => order_id r) rows)))
         groups).
Proof.
  intro Hp. unfold df_orders_by_status_region.
  apply (orderBy_any_order _ _ region_status_compare_order).
  - rewrite agg_keys; [|now intros [k s] l]. rewrite groupBy_keys. apply NoDup_nodup.
  - unfold Spark.agg. now apply Permutation_map.
Qed.

(** The counts add up to the number of rows with an order identifier. *)
Lemma total_orders_with_order_id (df : DataFrame NamedRow) :
  total_orders (df_orders_by_status_region df) = Z.of_nat (length (with_order_id df)).
Proof.
  unfold df_orders_by_status_region, total_orders.
  rewrite (sum_Z_permutation _ _
             (Permutation_map number_of_orders (orderBy_permutation _ _ _))).
  unfold Spark.agg. rewrite map_map.
  rewrite (map_ext _ (fun g => sum_Z (map (fun r : NamedRow =>
             match order_id r with Some _ => 1 | None => 0 end) (snd g)))).
  - rewrite weight_of_groups. apply weight_with_order_id.
  - intro g. cbn [number_of_orders]. apply count_weight.
Qed.

(** X19: when no order lacks its identifier, the counts of the summary
    by region and status add up to the row count of the table. *)
Lemma orders_total_is_row_count (df : DataFrame NamedRow) :
  Forall (fun r : NamedRow => order_id r <> None) df ->
  total_orders (df_orders_by_status_region df) = Z.of_nat (length df).
Proof.
  intro H. rewrite total_orders_with_order_id.
  unfold with_order_id. rewrite forallb_filter_id; [reflexivity|].
  apply forallb_forall. rewrite Forall_forall in H.
  intros r Hr. specialize (H r Hr). now destruct (order_id r).
Qed.

(** C5, as stated, fails on an order whose identifier is null: its
    group is listed with a count of zero, so the counts add up to 0
    while the derived table has one row. *)
Lemma count_skips_null_order_id :
  length (derived_table [order_without_id]) = 1%nat
  /\ df_orders_by_status_region (derived_table [order_without_id])
     = [mkRegionStatusOrders (Some "West"%string) (Some "Pending"%string) 0]
  /\ total_orders (df_orders_by_status_region (derived_table [order_without_id])) = 0.
Proof. repeat split; vm_compute; reflexivity. Qed.

(** C5 (amended): the summary by region and status has one row per pair
    (region, status) of the derived table and no other row, in strictly
    ascending order of region, then status; the count of a row is the
    number of rows of its group whose [order_id] is not null; the counts
    add up to the number of rows of the derived table whose [order_id]
    is not null. *)
Theorem orders_by_status_region_count_rows_with_id (df : DataFrame NamedRow) :
  StronglySorted
    (fun a b => region_status_lt (orders_region a, orders_status a)
                                 (orders_region b, orders_status b))
    (df_orders_by_status_region df)
  /\ (forall k s,
        In (k, s) (map (fun o => (orders_region o, orders_status o))
                       (df_orders_by_status_region df))
        <-> In (k, s) (map (fun r : NamedRow => (region r, status r)) df))
  /\ Forall (fun o =>
               in_region_status (orders_region o) (orders_status o) df <> []
               /\ number_of_orders o
                  = Z.of_nat (length (with_order_id
                       (in_region_status (orders_region o) (orders_status o) df))))
            (df_orders_by_status_region df)
  /\ total_orders (df_orders_by_status_region df)
     = Z.of_nat (length (with_order_id df)).
Proof.
  unfold df_orders_by_status_region.
  set (key := fun r : NamedRow => (region r, status r)).
  set (out_key := fun o => (orders_region o, orders_status o)).
  set (groups := Spark.groupBy region_status_eq_dec key df).
  set (f := fun (k : option string * option string) (rows : list NamedRow) =>
              mkRegionStatusOrders (fst k) (snd k)
                (Spark.count (map (fun r : NamedRow => order_id r) rows))).
  set (rows := Spark.agg f groups).
  assert (Hkeys : map out_key rows = nodup region_status_eq_dec (map key df)).
  { unfold rows. rewrite agg_keys; [apply groupBy_keys|]. now intros [k s] l. }
  assert (Hperm := orderBy_permutation region_status_compare out_key rows).
  assert (Hnd : NoDup (map out_key rows)) by (rewrite Hkeys; apply NoDup_nodup).
  pose proof (groupBy_rows region_status_eq_dec key df) as Hrows.
  rewrite Forall_forall in Hrows.
  split; [|split; [|split]].
  - exact (orderBy_strictly_sorted _ _ region_status_compare_order rows Hnd).
  - intros k s.
    rewrite <- (nodup_In region_status_eq_dec (map key df) (k, s)).
    rewrite <- Hkeys.
    split; apply Permutation_in, Permutation_map;
      [exact Hperm | apply Permutation_sym, Hperm].
  - apply Forall_forall. intros o Ho.
    apply (Permutation_in _ Hperm) in Ho.
    unfold rows, Spark.agg in Ho. apply in_map_iff in Ho.
    destruct Ho as (g & <- & Hg). specialize (Hrows g Hg).
    destruct g as [[k s] l]. simpl in Hrows. subst l.
    cbn [f fst snd orders_region orders_status number_of_orders].
    rewrite in_region_status_group. split.
    + rewrite <- in_region_status_group. apply group_not_empty.
      apply (nodup_In region_status_eq_dec).
      rewrite <- (groupBy_keys region_status_eq_dec).
      now apply (in_map fst) in Hg.
    + rewrite count_weight. apply weight_with_order_id.
  - apply total_orders_with_order_id.
Qed.

(* ================================================================== *)
(** * The run of the notebook *)
(* ================================================================== *)

(** The four total prices of the North add up to 1560.5 whatever the
    partitions and the order of the partial sums. *)
Lemma north_sum_any_plan (plan : Spark.Plan) :
  Spark.sum plan [Some 1200.5%float; Some 300%float; Some 0%float; Some 60%float]
  = Some 1560.5%float.
Proof.
  revert plan. apply (sum_any_plan (fun s => s = Some 1560.5%float)).
  vm_compute.
  repeat (apply Forall_cons;
          [repeat (apply Forall_cons; [reflexivity|]); apply Forall_nil|]).
  apply Forall_nil.
Qed.

(** C9: on the ten rows of the notebook, the orders of region "North"
    that survive the cleaning are ORD001, ORD004, ORD008 and ORD010, with
    total prices 1200.50, 300.00, 0.00 and 60.00; ORD008 has a null
    quantity in the raw table and quantity 0 after the cleaning; and the
    summary by region has one row for "North", whose total is 1560.50,
    whatever the partitions of the table and the order in which the
    partial sums arrive. *)
Theorem north_total_regional_sales (plan : option string -> Spark.Plan) :
  map (fun r : NamedRow => (order_id r, total_price r))
      (in_region (Some "North"%string) (derived_table df_raw_sales))
  = [ (Some "ORD001"%string, Some 1200.5%float);
      (Some "ORD004"%string, Some 300%float);
      (Some "ORD008"%string, Some 0%float);
      (Some "ORD010"%string, Some 60%float) ]
  /\ map quantity (with_order "ORD008" df_raw_sales) = [None]
  /\ map quantity (with_order "ORD008" (cleaning_stage df_raw_sales)) = [Some 0]
  /\ sales_of_region (Some "North"%string)
        (df_sales_by_region plan (derived_table df_raw_sales))
     = [ mkRegionSales (Some "North"%string) (Some 1560.5%float) ].
Proof.
  split; [vm_compute; reflexivity|].
  split; [vm_compute; reflexivity|].
  split; [vm_compute; reflexivity|].
  rewrite sales_of_region_row by (vm_compute; tauto).
  replace (map (fun r : NamedRow => total_price r)
               (in_region (Some "North"%string) (derived_table df_raw_sales)))
    with [Some 1200.5%float; Some 300%float; Some 0%float; Some 60%float]
    by (vm_compute; reflexivity).
  rewrite north_sum_any_plan. vm_compute. reflexivity.
Qed.

(* ================================================================== *)
(** * Regional totals against the table's total *)
(* ================================================================== *)

Lemma total_cents_cons (v : option float) (column : list (option float)) :
  total_cents (v :: column)
  = match cents_of v, total_cents column with
    | Some c, Some a => Some (c + a)
    | _, _ => None
    end.
Proof. reflexivity. Qed.

Lemma total_cents_some (column : list (option float)) (z : Z) :
  total_cents column = Some z ->
  Forall (fun v => cents_of v <> None) column
  /\ sum_Z (map cents_or_zero column) = z.
Proof.
  revert z. induction column as [|v column IH]; intros z H.
  - injection H as <-. split; [constructor | reflexivity].
  - rewrite total_cents_cons in H.
    destruct (cents_of v) as [c|] eqn:Ev; [|discriminate].
    destruct (total_cents column) as [a|]; [|discriminate].
    injection H as <-. destruct (IH a eq_refl) as [Hall Hsum]. split.
    + constructor; [congruence | exact Hall].
    + cbn [map]. rewrite sum_Z_cons, Hsum. unfold cents_or_zero. now rewrite Ev.
Qed.

Lemma total_cents_readable (column : list (option float)) :
  Forall (fun v => cents_of v <> None) column ->
  total_cents column = Some (sum_Z (map cents_or_zero column)).
Proof.
  induction 1 as [|v column Hv _ IH]; [reflexivity|].
  rewrite total_cents_cons, IH. cbn [map]. rewrite sum_Z_cons.
  unfold cents_or_zero. destruct (cents_of v); [reflexivity | now elim Hv].
Qed.

(** The sums of the two regions of the table with a large amount do
    not depend on the plan. *)
Lemma large_sales_sums (plan : Spark.Plan) :
  Spark.sum plan [Some 9007199254740992%float; Some 1%float]
  = Some 9007199254740992%float
  /\ Spark.sum plan [Some 1%float; Some 1%float; Some 1%float; Some 1%float]
     = Some 4%float.
Proof.
  split; revert plan.
  - apply (sum_any_plan (fun s => s = Some 9007199254740992%float)).
    vm_compute.
    repeat (apply Forall_cons;
            [repeat (apply Forall_cons; [reflexivity|]); apply Forall_nil|]).
    apply Forall_nil.
  - apply (sum_any_plan (fun s => s = Some 4%float)).
    vm_compute.
    repeat (apply Forall_cons;
            [repeat (apply Forall_cons; [reflexivity|]); apply Forall_nil|]).
    apply Forall_nil.
Qed.

Lemma large_sales_summary (plan : option string -> Spark.Plan) :
  df_sales_by_region plan (derived_table large_sales)
  = [ mkRegionSales (Some "North"%string) (Some 9007199254740992%float);
      mkRegionSales (Some "South"%string) (Some 4%float) ].
Proof.
  transitivity (df_sales_by_region one_partition_each (derived_table large_sales));
    [|vm_compute; reflexivity].
  apply sales_by_region_same_sums. intros k Hk. vm_compute in Hk.
  destruct Hk as [<-|[<-|[<-|[<-|[<-|[<-|[]]]]]]].
  all: match goal with
       | |- Spark.sum _ ?v = _ =>
           let v' := eval vm_compute in v in
           change v with v'
       end.
  all: unfold one_partition_each.
  all: first [ rewrite !(proj1 (large_sales_sums _))
             | rewrite !(proj2 (large_sales_sums _)) ]; reflexivity.
Qed.

(** C6, as stated, fails on a table with a large amount.  In the North
    the double sum of 2^53 and 1 is 2^53, so the regional totals are
    2^53 and 4, whatever the plan: they add up to 2^53 + 4, a whole unit
    less than the sum of the six total prices, 2^53 + 5.  Added as
    doubles in table order, the six total prices give 2^53, four units
    less than the regional totals added as doubles. *)
Lemma regional_totals_lose_a_unit :
  (forall plan,
     map total_regional_sales (df_sales_by_region plan (derived_table large_sales))
     = [Some 9007199254740992%float; Some 4%float])
  /\ total_cents [Some 9007199254740992%float; Some 4%float]
     = Some 900719925474099600
  /\ total_cents (map (fun r : NamedRow => total_price r) (derived_table large_sales))
     = Some 900719925474099700
  /\ Spark.sum_buffer [Some 9007199254740992%float; Some 4%float]
     = Some 9007199254740996%float
  /\ Spark.sum_buffer
       (map (fun r : NamedRow => total_price r) (derived_table large_sales))
     = Some 9007199254740992%float.
Proof.
  split; [intro plan; now rewrite large_sales_summary|].
  repeat split; vm_compute; reflexivity.
Qed.

(** C6 (amended): when the total of every row of the summary by region
    is, in cents, the exact sum of the total prices of its region, the
    regional totals add up, in cents, to the sum of [total_price] over
    the derived table. *)
Theorem regional_totals_add_up (plan : option string -> Spark.Plan)
  (df : DataFrame NamedRow) :
  Forall (exact_regional_total df) (df_sales_by_region plan df) ->
  exists c,
    total_cents (map total_regional_sales (df_sales_by_region plan df)) = Some c
    /\ total_cents (map (fun r : NamedRow => total_price r) df) = Some c.
Proof.
  intro Hexact.
  pose proof (sales_by_region_rows plan df) as Hperm.
  set (price := fun r : NamedRow => cents_or_zero (total_price r)).
  assert (Hgroup : forall k, In k (map (fun r : NamedRow => region r) df) ->
            exists c,
              cents_of (Spark.round
                          (Spark.sum (plan k)
                             (map (fun r : NamedRow => total_price r)
                                  (in_region k df))) 2) = Some c
              /\ total_cents (map (fun r : NamedRow => total_price r) (in_region k df))
                 = Some c).
  { intros k Hk. rewrite Forall_forall in Hexact.
    apply (Hexact (mkRegionSales k _)).
    apply (Permutation_in _ (Permutation_sym Hperm)).
    apply in_map_iff. exists k. split; [reflexivity|]. now apply nodup_In. }
  exists (sum_Z (map price df)). split.
  - rewrite total_cents_readable.
    + f_equal. rewrite map_map.
      rewrite (sum_Z_permutation _ _
                 (Permutation_map (fun o => cents_or_zero (total_regional_sales o)) Hperm)).
      rewrite map_map. cbn [total_regional_sales].
      rewrite <- (weight_of_groups option_string_eq_dec (fun r : NamedRow => region r) price df).
      unfold Spark.groupBy. rewrite map_map. cbn [snd].
      f_equal. apply map_ext_in. intros k Hk. apply nodup_In in Hk.
      destruct (Hgroup k Hk) as (c & Hc & Hsum).
      apply total_cents_some in Hsum. destruct Hsum as [_ Hsum].
      unfold cents_or_zero at 1. rewrite Hc, <- Hsum, map_map. reflexivity.
    + apply Forall_forall. intros v Hv. apply in_map_iff in Hv.
      destruct Hv as (o & <- & Ho). rewrite Forall_forall in Hexact.
      destruct (Hexact o Ho) as (c & Hc & _). congruence.
  - rewrite total_cents_readable; [now rewrite map_map|].
    apply Forall_forall. intros v Hv. apply in_map_iff in Hv.
    destruct Hv as (r & <- & Hr).
    destruct (Hgroup (region r)) as (c & _ & Hsum);
      [now apply (in_map (fun r : NamedRow => region r))|].
    apply total_cents_some in Hsum. destruct Hsum as [Hall _].
    rewrite Forall_forall in Hall. apply Hall.
    apply (in_map (fun r : NamedRow => total_price r)).
    unfold in_region. apply filter_In. split; [exact Hr|].
    now destruct (option_string_eq_dec (region r) (region r)).
Qed.

(** On the ten rows of the notebook the sums of the three regions do
    not depend on the plan. *)
Lemma notebook_sums (plan : Spark.Plan) :
  Spark.sum plan [Some 1200.5%float; Some 300%float; Some 0%float; Some 60%float]
  = Spark.sum Spark.one_partition
      [Some 1200.5%float; Some 300%float; Some 0%float; Some 60%float]
  /\ Spark.sum plan [Some 50%float; Some 150%float]
     = Spark.sum Spark.one_partition [Some 50%float; Some 150%float]
  /\ Spark.sum plan
       (map (fun r : NamedRow => total_price r)
            (in_region (Some "East"%string) (derived_table df_raw_sales)))
     = Spark.sum Spark.one_partition
         (map (fun r : NamedRow => total_price r)
              (in_region (Some "East"%string) (derived_table df_raw_sales))).
Proof.
  repeat split; revert plan;
    match goal with
    | |- forall plan, Spark.sum plan ?v = ?s =>
        apply (sum_any_plan (fun x => x = s) v)
    end;
    vm_compute;
    repeat (apply Forall_cons;
            [repeat (apply Forall_cons; [reflexivity|]); apply Forall_nil|]);
    apply Forall_nil.
Qed.

(** The summary by region of the notebook is the same under every
    plan. *)
Lemma notebook_summary_any_plan (plan : option string -> Spark.Plan) :
  df_sales_by_region plan (derived_table df_raw_sales)
  = df_sales_by_region one_partition_each (derived_table df_raw_sales).
Proof.
  apply sales_by_region_same_sums. intros k Hk. vm_compute in Hk.
  unfold one_partition_each.
  destruct Hk as [<-|[<-|[<-|[<-|[<-|[<-|[<-|[<-|[<-|[]]]]]]]]]].
  all: try (replace (map (fun r : NamedRow => total_price r)
                         (in_region (Some "North"%string) (derived_table df_raw_sales)))
              with [Some 1200.5%float; Some 300%float; Some 0%float; Some 60%float]
              by (vm_compute; reflexivity);
            apply notebook_sums).
  all: try (replace (map (fun r : NamedRow => total_price r)
                         (in_region (Some "South"%string) (derived_table df_raw_sales)))
              with [Some 50%float; Some 150%float]
              by (vm_compute; reflexivity);
            apply notebook_sums).
  all: apply notebook_sums.
Qed.

(** On the ten rows of the notebook every regional total is exact, and
    both sums are 1995.74. *)
Lemma notebook_regional_totals_add_up :
  Forall (exact_regional_total (derived_table df_raw_sales))
         (df_sales_by_region one_partition_each (derived_table df_raw_sales))
  /\ exists c,
       total_cents (map total_regional_sales
                        (df_sales_by_region one_partition_each
                           (derived_table df_raw_sales))) = Some c
       /\ total_cents (map (fun r : NamedRow => total_price r)
                           (derived_table df_raw_sales)) = Some c.
Proof.
  assert (H : Forall (exact_regional_total (derived_table df_raw_sales))
                     (df_sales_by_region one_partition_each
                        (derived_table df_raw_sales))).
  { apply Forall_forall. intros o Ho.
    apply (Permutation_in _ (sales_by_region_rows _ _)) in Ho.
    apply in_map_iff in Ho. destruct Ho as (k & <- & Hk).
    vm_compute in Hk.
    destruct Hk as [<-|[<-|[<-|[]]]]; eexists; split; vm_compute; reflexivity. }
  split; [exact H | exact (regional_totals_add_up _ _ H)].
Defined.

(** Both sums on the ten rows of the notebook, whatever the plan:
    1995.74. *)
Lemma notebook_totals_in_cents :
  (forall plan,
     total_cents (map total_regional_sales
                      (df_sales_by_region plan (derived_table df_raw_sales)))
     = Some 199574)
  /\ total_cents (map (fun r : NamedRow => total_price r)
                      (derived_table df_raw_sales)) = Some 199574.
Proof.
  split; [intro plan; rewrite notebook_summary_any_plan|]; vm_compute; reflexivity.
Qed.

(** The ten rows of the notebook have no null but the quantity of
    ORD008: the cleaning stage drops ORD005 alone and nine rows remain,
    each with a total price, and the nine orders are all counted. *)
Lemma notebook_run :
  length df_raw_sales = 10%nat
  /\ map order_id (with_status "Cancelled" df_raw_sales) = [Some "ORD005"%string]
  /\ length (cleaning_stage df_raw_sales) = 9%nat
  /\ with_order "ORD005" (cleaning_stage df_raw_sales) = []
  /\ forallb (fun r : NamedRow => match total_price r with Some _ => true | None => false end)
             (derived_table df_raw_sales) = true
  /\ map (fun o => (orders_region o, orders_status o, number_of_orders o))
         (df_orders_by_status_region (derived_table df_raw_sales))
     = [ (Some "East"%string, Some "Completed"%string, 2);
         (Some "East"%string, Some "Pending"%string, 1);
         (Some "North"%string, Some "Completed"%string, 3);
         (Some "North"%string, Some "Pending"%string, 1);
         (Some "South"%string, Some "Completed"%string, 1);
         (Some "South"%string, Some "Pending"%string, 1) ]
  /\ total_orders (df_orders_by_status_region (derived_table df_raw_sales)) = 9.
Proof. repeat split; vm_compute; reflexivity. Qed.

(* ================================================================== *)
(** * The pipeline in one pass *)
(* ================================================================== *)

Lemma filtered_as_kept (df : DataFrame Row) :
  df_filtered_orders df = List.filter kept df.
Proof.
  unfold df_filtered_orders, Spark.filter. apply filter_ext. intro r.
  unfold kept, Spark.ne, Spark.lit. destruct (status r) as [s|]; [|reflexivity].
  now destruct (String.eqb s "Cancelled").
Qed.

Lemma filled_as_map (df : DataFrame Row) :
  df_cleaned_quantity df = map fill_row df.
Proof.
  unfold df_cleaned_quantity, na_fill_quantity. apply map_ext. intro r.
  unfold fill_row, Spark.coalesce. now destruct (quantity r).
Qed.

Lemma kept_fill_row (r : Row) : kept (fill_row r) = kept r.
Proof. reflexivity. Qed.

Lemma fill_row_twice (r : Row) : fill_row (fill_row r) = fill_row r.
Proof. reflexivity. Qed.

Lemma cleaning_as_kept (raw : DataFrame Row) :
  cleaning_stage raw = map fill_row (List.filter kept raw).
Proof.
  unfold cleaning_stage. rewrite filtered_as_kept, filled_as_map, filter_of_map.
  reflexivity.
Qed.

Lemma derivation_as_map (cleaned : DataFrame Row) :
  derivation_stage cleaned = map derive_row cleaned.
Proof. apply derived_rows. Qed.

Lemma derived_as_kept (raw : DataFrame Row) :
  derived_table raw = map (fun r => derive_row (fill_row r)) (List.filter kept raw).
Proof.
  unfold derived_table. rewrite derivation_as_map, cleaning_as_kept, map_map.
  reflexivity.
Qed.

(** X1: the cleaning stage is idempotent, and each of its two steps
    leaves a cleaned table as it is. *)
Theorem cleaning_idempotent (raw : DataFrame Row) :
  cleaning_stage (cleaning_stage raw) = cleaning_stage raw
  /\ df_cleaned_quantity (cleaning_stage raw) = cleaning_stage raw
  /\ df_filtered_orders (cleaning_stage raw) = cleaning_stage raw.
Proof.
  assert (Hfill : df_cleaned_quantity (cleaning_stage raw) = cleaning_stage raw).
  { rewrite filled_as_map, cleaning_as_kept, map_map. apply map_ext.
    intro r. apply fill_row_twice. }
  assert (Hfilter : df_filtered_orders (cleaning_stage raw) = cleaning_stage raw).
  { rewrite filtered_as_kept, cleaning_as_kept, filter_of_map. f_equal.
    rewrite (filter_ext _ kept) by (intro r; apply kept_fill_row).
    rewrite filter_twice. apply filter_ext. intro r. now destruct (kept r). }
  split; [|split; assumption].
  unfold cleaning_stage at 1. now rewrite Hfill, Hfilter.
Qed.

(** X2: the cleaning and the derivation work row by row: the cleaned
    and the derived table of two tables put end to end are the cleaned
    and the derived tables put end to end. *)
Theorem pipeline_row_by_row (a b : DataFrame Row) :
  cleaning_stage (a ++ b) = cleaning_stage a ++ cleaning_stage b
  /\ derivation_stage (a ++ b) = derivation_stage a ++ derivation_stage b
  /\ derived_table (a ++ b) = derived_table a ++ derived_table b.
Proof.
  rewrite !cleaning_as_kept, !derivation_as_map, !derived_as_kept.
  rewrite filter_app, !map_app. repeat split; reflexivity.
Qed.

(** X3: the invariants of the cleaning hold in the derived table and
    in the summary by region and status: every row of the derived table
    has a quantity and a status that is a string other than "Cancelled",
    and so has every row of the summary. *)
Theorem no_cancelled_status_downstream (raw : DataFrame Row) :
  Forall (fun r : NamedRow =>
            quantity r <> None
            /\ exists s, status r = Some s /\ s <> "Cancelled"%string)
         (derived_table raw)
  /\ Forall (fun o => exists s, orders_status o = Some s /\ s <> "Cancelled"%string)
            (df_orders_by_status_region (derived_table raw)).
Proof.
  assert (Hrows : forall r : NamedRow, In r (derived_table raw) ->
            quantity r <> None
            /\ exists s, status r = Some s /\ s <> "Cancelled"%string).
  { intros d Hd. rewrite derived_as_kept in Hd. apply in_map_iff in Hd.
    destruct Hd as (r & <- & Hr). apply filter_In in Hr. destruct Hr as [_ Hk].
    split; [discriminate|]. cbn. unfold kept in Hk.
    destruct (status r) as [s|]; [|discriminate]. exists s. split; [reflexivity|].
    intro E. subst s. discriminate. }
  split; [now apply Forall_forall|].
  apply Forall_forall. intros o Ho.
  unfold df_orders_by_status_region in Ho.
  apply (Permutation_in _ (orderBy_permutation _ _ _)) in Ho.
  unfold Spark.agg, Spark.groupBy in Ho. rewrite map_map in Ho.
  apply in_map_iff in Ho. destruct Ho as (ks & <- & Hks).
  apply nodup_In, in_map_iff in Hks. destruct Hks as (d & <- & Hd).
  cbn [orders_status fst snd]. now apply Hrows.
Qed.

(* ================================================================== *)
(** * The summaries, read on the raw table *)
(* ================================================================== *)

Lemma sales_by_region_regions (plan : option string -> Spark.Plan)
  (df : DataFrame NamedRow) (k : option string) :
  In k (map sales_region (df_sales_by_region plan df))
  <-> In k (map (fun r : NamedRow => region r) df).
Proof.
  rewrite <- (nodup_In option_string_eq_dec (map (fun r : NamedRow => region r) df) k).
  pose proof (Permutation_map sales_region (sales_by_region_rows plan df)) as Hp.
  rewrite map_map in Hp. cbn [sales_region] in Hp. rewrite map_id in Hp.
  split; apply Permutation_in; [exact Hp | now apply Permutation_sym].
Qed.

Lemma sales_by_region_totals (plan : option string -> Spark.Plan)
  (df : DataFrame NamedRow) :
  Forall (fun o =>
            total_regional_sales o
            = Spark.round
                (Spark.sum (plan (sales_region o))
                   (map (fun r : NamedRow => total_price r)
                        (in_region (sales_region o) df))) 2)
         (df_sales_by_region plan df).
Proof.
  apply Forall_forall. intros o Ho.
  apply (Permutation_in _ (sales_by_region_rows plan df)) in Ho.
  apply in_map_iff in Ho. now destruct Ho as (k & <- & _).
Qed.

(** The rows of a region in the derived table come from the kept rows
    of that region in the raw table. *)
Lemma in_region_derived (k : option string) (raw : DataFrame Row) :
  in_region k (derived_table raw)
  = map (fun r => derive_row (fill_row r)) (kept_in_region k raw).
Proof.
  unfold in_region, kept_in_region. rewrite derived_as_kept, filter_of_map.
  f_equal. rewrite filter_twice. reflexivity.
Qed.

Lemma total_price_derived (rows : list Row) :
  map (fun r : NamedRow => total_price r)
      (map (fun r => derive_row (fill_row r)) rows)
  = map (fun r => rounded_product (fill_row r)) rows.
Proof. now rewrite map_map. Qed.

(** X4: the summary by region lists exactly the regions in which the
    raw table has a row that the cleaning keeps: a region whose orders
    are all cancelled, or all without a status, is absent. *)
Theorem regions_of_summary_from_raw (plan : option string -> Spark.Plan)
  (raw : DataFrame Row) (k : option string) :
  In k (map sales_region (df_sales_by_region plan (derived_table raw)))
  <-> kept_in_region k raw <> [].
Proof.
  rewrite sales_by_region_regions, derived_as_kept, map_map.
  cbn [region priced_columns sales_columns derive_row fill_row].
  unfold kept_in_region. split.
  - intros Hk E. apply in_map_iff in Hk. destruct Hk as (r & Hr & Hin).
    apply filter_In in Hin. destruct Hin as [Hin Hkept].
    assert (H : In r (List.filter (fun r => kept r && region_is k r) raw)).
    { apply filter_In. split; [exact Hin|]. rewrite Hkept. unfold region_is.
      now destruct (option_string_eq_dec (region r) k). }
    now rewrite E in H.
  - intro Hne.
    destruct (List.filter (fun r => kept r && region_is k r) raw) as [|r l] eqn:E;
      [now elim Hne|].
    assert (H : In r (List.filter (fun r => kept r && region_is k r) raw))
      by (rewrite E; now left).
    apply filter_In in H. destruct H as [Hin Hp].
    apply andb_true_iff in Hp. destruct Hp as [Hkept Hreg].
    apply in_map_iff. exists r. split.
    + unfold region_is in Hreg. now destruct (option_string_eq_dec (region r) k).
    + apply filter_In. now split.
Qed.

(** X5: whatever the partitions of the table and the order in which
    the partial sums arrive, each total of the summary by region is
    computed from the raw table alone.  Over the kept rows of the region,
    take the rounded product of the price and the quantity, a null
    quantity counting as 0: the total is null when every product is null,
    and else a double sum of the products present, each taken once,
    rounded half up to cents; it is the sum that the plan of the region
    makes of these products, rounded. *)
Theorem regional_totals_from_raw (plan : option string -> Spark.Plan)
  (raw : DataFrame Row) :
  Forall (fun o =>
            rounded_sum_of
              (map (fun r => rounded_product (fill_row r))
                   (kept_in_region (sales_region o) raw))
              (total_regional_sales o)
            /\ total_regional_sales o
               = Spark.round
                   (Spark.sum (plan (sales_region o))
                      (map (fun r => rounded_product (fill_row r))
                           (kept_in_region (sales_region o) raw))) 2)
         (df_sales_by_region plan (derived_table raw)).
Proof.
  eapply Forall_impl; [|apply sales_by_region_totals].
  intros o ->. rewrite in_region_derived, total_price_derived.
  split; [apply rounded_sum | reflexivity].
Qed.

(** X6: a total of the summary by region is null exactly when every row
    of its region has a null total price, that is, on a run of the
    pipeline, when every kept order of the region has a null price: such
    a region is listed with a null total, not with 0. *)
Theorem null_regional_total (plan : option string -> Spark.Plan)
  (df : DataFrame NamedRow) (raw : DataFrame Row) :
  Forall (fun o =>
            total_regional_sales o = None
            <-> Forall (fun r : NamedRow => total_price r = None)
                       (in_region (sales_region o) df))
         (df_sales_by_region plan df)
  /\ Forall (fun o =>
               total_regional_sales o = None
               <-> Forall (fun r => price_per_unit r = None)
                          (kept_in_region (sales_region o) raw))
            (df_sales_by_region plan (derived_table raw)).
Proof.
  assert (H : forall t : DataFrame NamedRow,
            Forall (fun o =>
                      total_regional_sales o = None
                      <-> Forall (fun r : NamedRow => total_price r = None)
                                 (in_region (sales_region o) t))
                   (df_sales_by_region plan t)).
  { intro t. eapply Forall_impl; [|apply sales_by_region_totals].
    intros o ->. unfold Spark.round.
    destruct (Spark.sum _) as [x|] eqn:E; simpl.
    - split; [discriminate|]. intro Hall.
      assert (Hs : Spark.sum (plan (sales_region o))
                     (map (fun r : NamedRow => total_price r)
                          (in_region (sales_region o) t)) = None).
      { apply sum_null_iff. apply Forall_forall. intros v Hv.
        apply in_map_iff in Hv. destruct Hv as (r & <- & Hr).
        rewrite Forall_forall in Hall. now apply Hall. }
      congruence.
    - split; [|reflexivity]. intros _. apply sum_null_iff in E.
      rewrite Forall_forall in E. apply Forall_forall. intros r Hr.
      apply E. now apply (in_map (fun r : NamedRow => total_price r)). }
  split; [apply H|].
  eapply Forall_impl; [|apply (H (derived_table raw))].
  intros o ->. rewrite in_region_derived. rewrite !Forall_forall.
  split.
  - intros Hall r Hr.
    specialize (Hall (derive_row (fill_row r))
                     (in_map (fun r => derive_row (fill_row r)) _ r Hr)).
    cbn in Hall. unfold rounded_product in Hall. cbn in Hall.
    now destruct (price_per_unit r).
  - intros Hall d Hd. apply in_map_iff in Hd. destruct Hd as (r & <- & Hr).
    cbn. unfold rounded_product. cbn. now rewrite (Hall r Hr).
Qed.

(** The rows of the summary by region and status, before they are
    sorted. *)
Lemma orders_by_status_region_rows (df : DataFrame NamedRow) :
  Permutation
    (df_orders_by_status_region df)
    (map (fun ks =>
            mkRegionStatusOrders (fst ks) (snd ks)
              (Z.of_nat (length (with_order_id (in_region_status (fst ks) (snd ks) df)))))
         (nodup region_status_eq_dec
                (map (fun r : NamedRow => (region r, status r)) df))).
Proof.
  unfold df_orders_by_status_region. rewrite orderBy_permutation.
  unfold Spark.agg, Spark.groupBy. rewrite map_map. cbn [fst snd].
  erewrite map_ext; [reflexivity|]. intros [k s]. cbn [fst snd].
  now rewrite in_region_status_group, count_weight, weight_with_order_id.
Qed.

Lemma orders_by_status_region_counts (df : DataFrame NamedRow) :
  Forall (fun o =>
            In (orders_region o, orders_status o)
               (map (fun r : NamedRow => (region r, status r)) df)
            /\ number_of_orders o
               = Z.of_nat (length (with_order_id
                    (in_region_status (orders_region o) (orders_status o) df))))
         (df_orders_by_status_region df).
Proof.
  apply Forall_forall. intros o Ho.
  apply (Permutation_in _ (orders_by_status_region_rows df)) in Ho.
  apply in_map_iff in Ho. destruct Ho as ([k s] & <- & Hks).
  apply nodup_In in Hks. now split.
Qed.

(** X7: each count of the summary by region and status is computed from
    the raw table alone: it is the number of raw rows with that region,
    that status and an order identifier. *)
Theorem order_counts_from_raw (raw : DataFrame Row) :
  Forall (fun o =>
            number_of_orders o
            = Z.of_nat (length (identified_orders (orders_region o) (orders_status o) raw)))
         (df_orders_by_status_region (derived_table raw)).
Proof.
  eapply Forall_impl; [|apply orders_by_status_region_counts].
  intros o [Hkey ->]. f_equal.
  rewrite derived_as_kept, map_map in Hkey.
  cbn [region status priced_columns sales_columns derive_row fill_row] in Hkey.
  apply in_map_iff in Hkey. destruct Hkey as (r0 & E & Hr0).
  injection E as Ek Es. apply filter_In in Hr0. destruct Hr0 as [_ Hkept0].
  unfold with_order_id, in_region_status, identified_orders.
  rewrite derived_as_kept, !filter_of_map, length_map, !filter_twice.
  f_equal. apply filter_ext. intro r.
  cbn [region status order_id priced_columns sales_columns derive_row fill_row].
  unfold region_is, status_is, has_order_id.
  destruct (option_string_eq_dec (region r) (orders_region o)); [|now rewrite andb_false_r].
  destruct (option_string_eq_dec (status r) (orders_status o)) as [Hs|];
    [|now rewrite andb_false_r].
  replace (kept r) with true; [reflexivity|].
  unfold kept in *. rewrite Hs, <- Es. now symmetry.
Qed.

(** X8: a count of the summary by region and status lies between 0 and
    the size of its group, which is not empty; it is the size of the
    group exactly when no order of the group lacks its identifier, and
    0 exactly when every order of the group lacks it. *)
Theorem order_count_bounds (df : DataFrame NamedRow) :
  Forall (fun o =>
            let group := in_region_status (orders_region o) (orders_status o) df in
            group <> []
            /\ 0 <= number_of_orders o <= Z.of_nat (length group)
            /\ (number_of_orders o = Z.of_nat (length group)
                <-> Forall (fun r : NamedRow => order_id r <> None) group)
            /\ (number_of_orders o = 0
                <-> Forall (fun r : NamedRow => order_id r = None) group))
         (df_orders_by_status_region df).
Proof.
  eapply Forall_impl; [|apply orders_by_status_region_counts].
  intros o [Hkey ->]. cbv zeta.
  set (group := in_region_status (orders_region o) (orders_status o) df).
  split.
  - unfold group. rewrite <- in_region_status_group. now apply group_not_empty.
  - unfold with_order_id. clearbody group. clear Hkey.
    induction group as [|r group IH]; cbn [List.filter length].
    + repeat split; try lia; constructor.
    + destruct IH as (Hb & Hfull & Hzero).
      destruct (order_id r) as [x|] eqn:Ex; cbn [length].
      * split; [lia|]. split.
        -- rewrite !Nat2Z.inj_succ. split.
           ++ intro H. constructor; [congruence|]. apply Hfull. lia.
           ++ intro H. inversion H; subst. f_equal. now apply Hfull.
        -- split; [lia|]. intro H. inversion H; congruence.
      * split; [lia|]. split.
        -- split; [lia|]. intro H. inversion H; congruence.
        -- split.
           ++ intro H. constructor; [exact Ex|]. now apply Hzero.
           ++ intro H. inversion H; subst. now apply Hzero.
Qed.

(* ================================================================== *)
(** * The two summaries together *)
(* ================================================================== *)

Lemma sum_Z_filter {A : Type} (p : A -> bool) (f : A -> Z) (l : list A) :
  sum_Z (map f (List.filter p l)) = sum_Z (map (fun x => if p x then f x else 0) l).
Proof.
  induction l as [|x l IH]; [reflexivity|].
  cbn [List.filter map]. rewrite sum_Z_cons, <- IH.
  destruct (p x); [now rewrite map_cons, sum_Z_cons | reflexivity].
Qed.

Lemma sum_Z_zero {A : Type} (f : A -> Z) (l : list A) :
  (forall x, In x l -> f x = 0) -> sum_Z (map f l) = 0.
Proof.
  induction l as [|x l IH]; intro H; [reflexivity|].
  cbn [map]. rewrite sum_Z_cons, (H x (or_introl eq_refl)).
  rewrite IH; [reflexivity|]. intros y Hy. apply H. now right.
Qed.

Lemma orders_by_status_region_regions (df : DataFrame NamedRow) (k : option string) :
  In k (map orders_region (df_orders_by_status_region df))
  <-> In k (map (fun r : NamedRow => region r) df).
Proof.
  pose proof (Permutation_map orders_region (orders_by_status_region_rows df)) as Hp.
  rewrite map_map in Hp. cbn [orders_region] in Hp.
  split.
  - intro H. apply (Permutation_in _ Hp) in H. apply in_map_iff in H.
    destruct H as ([k' s] & <- & Hks). apply nodup_In, in_map_iff in Hks.
    destruct Hks as (r & E & Hr). injection E as <- _.
    now apply (in_map (fun r : NamedRow => region r)).
  - intro H. apply (Permutation_in _ (Permutation_sym Hp)).
    apply in_map_iff in H. destruct H as (r & <- & Hr).
    apply in_map_iff. exists (region r, status r). split; [reflexivity|].
    apply nodup_In. now apply (in_map (fun r : NamedRow => (region r, status r))).
Qed.

(** X9: the two summaries agree: they list the same regions, and the
    counts of a region, over its statuses, add up to the number of rows
    of the region that have an order identifier. *)
Theorem summaries_agree (plan : option string -> Spark.Plan)
  (df : DataFrame NamedRow) (k : option string) :
  (In k (map orders_region (df_orders_by_status_region df))
   <-> In k (map sales_region (df_sales_by_region plan df)))
  /\ sum_Z (map number_of_orders (orders_of_region k (df_orders_by_status_region df)))
     = Z.of_nat (length (with_order_id (in_region k df))).
Proof.
  split; [now rewrite orders_by_status_region_regions, sales_by_region_regions|].
  set (w := fun r : NamedRow =>
              if option_string_eq_dec (region r) k
              then match order_id r with Some _ => 1 | None => 0 end
              else 0).
  transitivity (sum_Z (map w df)).
  - unfold orders_of_region.
    rewrite (sum_Z_permutation _ _
               (Permutation_map number_of_orders
                  (permutation_filter _ _ _ (orders_by_status_region_rows df)))).
    rewrite filter_of_map, map_map. cbn [orders_region number_of_orders].
    rewrite sum_Z_filter.
    rewrite <- (weight_of_groups region_status_eq_dec
                  (fun r : NamedRow => (region r, status r)) w df).
    unfold Spark.groupBy. rewrite map_map. cbn [snd].
    f_equal. apply map_ext. intros [k' s]. cbn [fst snd].
    rewrite in_region_status_group.
    destruct (option_string_eq_dec k' k) as [->|Hne].
    + rewrite <- weight_with_order_id. f_equal. apply map_ext_in.
      intros r Hr. unfold in_region_status in Hr. apply filter_In in Hr.
      destruct Hr as [_ Hr]. unfold w.
      now destruct (option_string_eq_dec (region r) k).
    + symmetry. apply sum_Z_zero. intros r Hr.
      unfold in_region_status in Hr. apply filter_In in Hr.
      destruct Hr as [_ Hr]. unfold w.
      destruct (option_string_eq_dec (region r) k') as [E|]; [|discriminate].
      destruct (option_string_eq_dec (region r) k); [congruence | reflexivity].
  - rewrite <- weight_with_order_id. unfold in_region.
    rewrite sum_Z_filter. f_equal. apply map_ext. intro r. unfold w.
    now destruct (option_string_eq_dec (region r) k).
Qed.

Lemma nodup_length_le {A : Type} (dec : forall x y : A, {x = y} + {x <> y})
  (l : list A) : (length (nodup dec l) <= length l)%nat.
Proof.
  apply NoDup_incl_length; [apply NoDup_nodup|]. intros x Hx. now apply nodup_In in Hx.
Qed.

Lemma sales_by_region_length (plan : option string -> Spark.Plan)
  (df : DataFrame NamedRow) :
  length (df_sales_by_region plan df)
  = length (nodup option_string_eq_dec (map (fun r : NamedRow => region r) df)).
Proof.
  rewrite (Permutation_length (sales_by_region_rows plan df)). apply length_map.
Qed.

Lemma orders_by_status_region_length (df : DataFrame NamedRow) :
  length (df_orders_by_status_region df)
  = length (nodup region_status_eq_dec
                  (map (fun r : NamedRow => (region r, status r)) df)).
Proof.
  rewrite (Permutation_length (orders_by_status_region_rows df)). apply length_map.
Qed.

(** X10: the summary by region has at most as many rows as the summary
    by region and status, which has at most as many rows as the table;
    a summary is empty exactly when the table is. *)
Theorem summary_sizes (plan : option string -> Spark.Plan)
  (df : DataFrame NamedRow) :
  (length (df_sales_by_region plan df) <= length (df_orders_by_status_region df)
   <= length df)%nat
  /\ (df_sales_by_region plan df = [] <-> df = [])
  /\ (df_orders_by_status_region df = [] <-> df = []).
Proof.
  rewrite <- !length_zero_iff_nil, sales_by_region_length, orders_by_status_region_length.
  set (keys := map (fun r : NamedRow => (region r, status r)) df).
  set (regions := map (fun r : NamedRow => region r) df).
  assert (Hk : (length (nodup region_status_eq_dec keys) <= length df)%nat).
  { rewrite <- (length_map (fun r : NamedRow => (region r, status r)) df).
    apply nodup_length_le. }
  assert (Hr : (length (nodup option_string_eq_dec regions)
                <= length (nodup region_status_eq_dec keys))%nat).
  { rewrite <- (length_map fst (nodup region_status_eq_dec keys)).
    apply NoDup_incl_length; [apply NoDup_nodup|]. intros k Hk'.
    apply nodup_In in Hk'. unfold regions in Hk'. apply in_map_iff in Hk'.
    destruct Hk' as (r & <- & Hin). apply in_map_iff.
    exists (region r, status r). split; [reflexivity|]. apply nodup_In.
    unfold keys. now apply (in_map (fun r : NamedRow => (region r, status r))). }
  assert (Hpos : df <> [] -> (0 < length (nodup option_string_eq_dec regions))%nat).
  { destruct df as [|r df']; [congruence|]. intros _.
    assert (Hin : In (region r) (nodup option_string_eq_dec regions))
      by (apply nodup_In; now left).
    destruct (nodup option_string_eq_dec regions); [destruct Hin | simpl; lia]. }
  split; [lia|].
  destruct df as [|r df']; [repeat split; reflexivity|].
  specialize (Hpos ltac:(discriminate)).
  split; split; intro H; try discriminate; lia.
Qed.

(* ================================================================== *)
(** * The order of the rows *)
(* ================================================================== *)

Lemma sales_strictly_sorted (plan : option string -> Spark.Plan)
  (df : DataFrame NamedRow) :
  StronglySorted (Spark.key_lt region_compare sales_region)
                 (df_sales_by_region plan df).
Proof.
  unfold df_sales_by_region.
  apply (orderBy_strictly_sorted _ _ region_compare_order).
  rewrite agg_keys by reflexivity. rewrite groupBy_keys. apply NoDup_nodup.
Qed.

Lemma orders_strictly_sorted (df : DataFrame NamedRow) :
  StronglySorted
    (Spark.key_lt region_status_compare (fun o => (orders_region o, orders_status o)))
    (df_orders_by_status_region df).
Proof.
  unfold df_orders_by_status_region.
  apply (orderBy_strictly_sorted _ _ region_status_compare_order).
  rewrite agg_keys; [|now intros [k s] l]. rewrite groupBy_keys. apply NoDup_nodup.
Qed.

Lemma sorted_keys {R K : Type} (compare : K -> K -> comparison) (key : R -> K)
  (l : list R) :
  StronglySorted (Spark.key_lt compare key) l ->
  StronglySorted (Spark.key_lt compare (fun k => k)) (map key l).
Proof.
  induction 1 as [|a l _ IH Ha]; simpl; constructor; [exact IH|].
  apply Forall_forall. intros k Hk. apply in_map_iff in Hk.
  destruct Hk as (b & <- & Hb). rewrite Forall_forall in Ha. now apply Ha.
Qed.

(** X11: the summary by region and status does not depend on the order
    of the rows of the table, nor do the regions that the summary by
    region lists, whatever the plans of the two runs. *)
Theorem summaries_any_row_order (plan plan' : option string -> Spark.Plan)
  (df df' : DataFrame NamedRow) :
  Permutation df df' ->
  df_orders_by_status_region df = df_orders_by_status_region df'
  /\ map sales_region (df_sales_by_region plan df)
     = map sales_region (df_sales_by_region plan' df').
Proof.
  intro Hp. split.
  - apply (strictly_sorted_unique region_status_compare
             (fun o => (orders_region o, orders_status o))
             region_status_compare_order);
      try apply orders_strictly_sorted.
    rewrite (orders_by_status_region_rows df), (orders_by_status_region_rows df').
    set (key := fun r : NamedRow => (region r, status r)).
    erewrite (map_ext _ (fun ks =>
               mkRegionStatusOrders (fst ks) (snd ks)
                 (Z.of_nat (length (with_order_id
                    (in_region_status (fst ks) (snd ks) df')))))).
    + apply Permutation_map. apply NoDup_Permutation; try apply NoDup_nodup.
      intro ks. rewrite !nodup_In.
      split; apply Permutation_in, Permutation_map;
        [exact Hp | now apply Permutation_sym].
    + intro ks. do 2 f_equal. apply Permutation_length.
      unfold with_order_id, in_region_status. now do 2 apply permutation_filter.
  - apply (strictly_sorted_unique region_compare (fun k => k) region_compare_order).
    + apply sorted_keys, sales_strictly_sorted.
    + apply sorted_keys, sales_strictly_sorted.
    + pose proof (Permutation_map sales_region (sales_by_region_rows plan df)) as H.
      pose proof (Permutation_map sales_region (sales_by_region_rows plan' df')) as H'.
      rewrite map_map in H, H'. cbn [sales_region] in H, H'.
      rewrite map_id in H, H'. rewrite H, H'.
      apply NoDup_Permutation; try apply NoDup_nodup.
      intro k. rewrite !nodup_In.
      split; apply Permutation_in, Permutation_map;
        [exact Hp | now apply Permutation_sym].
Qed.

(** Two rows in either order. *)
Lemma summaries_any_row_order_example :
  Permutation (derived_table [order_without_id; order_without_price])
              (derived_table [order_without_price; order_without_id])
  /\ forall plan plan',
       df_orders_by_status_region (derived_table [order_without_id; order_without_price])
       = df_orders_by_status_region
           (derived_table [order_without_price; order_without_id])
       /\ map sales_region
              (df_sales_by_region plan
                 (derived_table [order_without_id; order_without_price]))
          = map sales_region
              (df_sales_by_region plan'
                 (derived_table [order_without_price; order_without_id])).
Proof.
  assert (Hp : Permutation (derived_table [order_without_id; order_without_price])
                           (derived_table [order_without_price; order_without_id])).
  { rewrite !derived_as_kept. simpl. apply perm_swap. }
  split; [exact Hp|].
  intros plan plan'. exact (summaries_any_row_order plan plan' _ _ Hp).
Defined.

(* ================================================================== *)
(** * Orders without a quantity *)
(* ================================================================== *)

Lemma round_zero_product (p : float) :
  Double.round 2 (PrimFloat.mul PrimFloat.zero p)
  = if Double.is_finite p then PrimFloat.zero else PrimFloat.nan.
Proof.
  pose proof (mul_spec PrimFloat.zero p) as H.
  change (Prim2SF PrimFloat.zero) with (S754_zero false) in H.
  unfold Double.is_finite, Double.round.
  destruct (Prim2SF p) as [s|s| |s m e]; unfold SF64mul, SFmul in H; rewrite H;
    try reflexivity;
    rewrite <- (SF2Prim_Prim2SF (PrimFloat.mul PrimFloat.zero p)), H; reflexivity.
Qed.

(** X12: an order of quantity 0, and so an order whose quantity was
    null, has total price 0.0 when its price is finite, whatever its
    sign, and NaN when its price is infinite or NaN. *)
Theorem zero_quantity_total_price (raw : DataFrame Row) :
  Forall (fun r : NamedRow =>
            quantity r = Some 0 ->
            forall p, price_per_unit r = Some p ->
            total_price r
            = Some (if Double.is_finite p then PrimFloat.zero else PrimFloat.nan))
         (derived_table raw)
  /\ Forall2 (fun (r : Row) (d : NamedRow) => quantity r = None -> quantity d = Some 0)
             (List.filter kept raw) (derived_table raw).
Proof.
  rewrite derived_as_kept. split.
  - apply Forall_forall. intros d Hd. apply in_map_iff in Hd.
    destruct Hd as (r & <- & _).
    cbn [quantity price_per_unit total_price priced_columns sales_columns
         derive_row fill_row].
    intros Hq p Hp. unfold rounded_product.
    cbn [quantity price_per_unit fill_row]. rewrite Hp.
    injection Hq as ->. cbn [Double.of_int]. now rewrite round_zero_product.
  - induction (List.filter kept raw) as [|r l IH]; cbn [map]; constructor;
      [|exact IH].
    intro H. cbn [quantity priced_columns sales_columns derive_row fill_row].
    now rewrite H.
Qed.

(** The totals of the summary by region do depend on the order of the
    rows and on the partitions of the table: double addition is not
    associative. *)
Lemma regional_total_depends_on_row_order :
  map total_regional_sales
      (df_sales_by_region one_partition_each (derived_table large_amount_first))
  = [Some 9007199254740992%float]
  /\ map total_regional_sales
         (df_sales_by_region one_partition_each (derived_table large_amount_last))
     = [Some 9007199254740994%float]
  /\ map total_regional_sales
         (df_sales_by_region first_row_apart (derived_table large_amount_first))
     = [Some 9007199254740994%float].
Proof. repeat split; vm_compute; reflexivity. Qed.

(* ================================================================== *)
(** * The derived table, read on the raw table *)
(* ================================================================== *)

(** X13: the derived table is made of the rows of the raw table that
    the cleaning keeps, in their order: each carries six columns of its
    raw row as they are, the quantity with 0 for null, the rounded
    product as total price and the customer name as full name. *)
Theorem derived_table_from_raw (raw : DataFrame Row) :
  Forall2 derived_from (List.filter kept raw) (derived_table raw)
  /\ (length (derived_table raw) + length (with_status "Cancelled" raw)
      + length (with_null_status raw) = length raw)%nat.
Proof.
  split.
  - rewrite derived_as_kept.
    induction (List.filter kept raw) as [|r l IH]; cbn [map]; constructor;
      [|exact IH].
    unfold derived_from, rounded_product.
    cbn [order_id customer_name item quantity price_per_unit region status
         total_price customer_full_name priced_columns sales_columns
         derive_row fill_row].
    repeat split; reflexivity.
  - unfold derived_table. rewrite derivation_as_map, length_map.
    unfold cleaning_stage.
    rewrite <- (filled_with_status "Cancelled" raw), <- (filled_with_null_status raw).
    rewrite filtered_count. apply length_map.
Qed.

(** X14: an order that the cleaning drops, cancelled or without a
    status, has no effect on the derived table, wherever it stands in
    the raw table, and so none on the summary by region and status.  The
    summary by region lists the same regions with or without it,
    whatever the plans of the two runs, and its totals are rounded sums
    of the total prices of the table without it; the partitions may
    differ between the two runs, and with them the order of the
    additions. *)
Theorem dropped_order_has_no_effect (plan plan' : option string -> Spark.Plan)
  (a b : DataFrame Row) (c : Row) :
  kept c = false ->
  derived_table (a ++ c :: b) = derived_table (a ++ b)
  /\ df_orders_by_status_region (derived_table (a ++ c :: b))
     = df_orders_by_status_region (derived_table (a ++ b))
  /\ map sales_region (df_sales_by_region plan (derived_table (a ++ c :: b)))
     = map sales_region (df_sales_by_region plan' (derived_table (a ++ b)))
  /\ Forall (fun o =>
               rounded_sum_of
                 (map (fun r : NamedRow => total_price r)
                      (in_region (sales_region o) (derived_table (a ++ b))))
                 (total_regional_sales o))
            (df_sales_by_region plan (derived_table (a ++ c :: b))).
Proof.
  intro Hc.
  assert (E : derived_table (a ++ c :: b) = derived_table (a ++ b)).
  { rewrite !derived_as_kept, !filter_app. cbn [List.filter]. now rewrite Hc. }
  rewrite E. split; [reflexivity|]. split; [reflexivity|]. split.
  - apply (strictly_sorted_unique region_compare (fun k => k) region_compare_order).
    + apply sorted_keys, sales_strictly_sorted.
    + apply sorted_keys, sales_strictly_sorted.
    + pose proof (Permutation_map sales_region
                    (sales_by_region_rows plan (derived_table (a ++ b)))) as H.
      pose proof (Permutation_map sales_region
                    (sales_by_region_rows plan' (derived_table (a ++ b)))) as H'.
      rewrite map_map in H, H'. cbn [sales_region] in H, H'.
      rewrite map_id in H, H'. now rewrite H, H'.
  - eapply Forall_impl; [|apply sales_by_region_totals].
    intros o ->. apply rounded_sum.
Qed.

(** The cancelled order of the notebook, ORD005, between two others. *)
Lemma dropped_order_has_no_effect_example :
  kept (sale "ORD005" "Eve Davis" "Laptop Bag" (Some 1) 45 "West" "Cancelled") = false
  /\ forall plan plan',
       derived_table
         ([order_without_id]
          ++ sale "ORD005" "Eve Davis" "Laptop Bag" (Some 1) 45 "West" "Cancelled"
          :: [order_without_price])
       = derived_table ([order_without_id] ++ [order_without_price])
       /\ df_orders_by_status_region
            (derived_table
               ([order_without_id]
                ++ sale "ORD005" "Eve Davis" "Laptop Bag" (Some 1) 45 "West" "Cancelled"
                :: [order_without_price]))
          = df_orders_by_status_region
              (derived_table ([order_without_id] ++ [order_without_price]))
       /\ map sales_region
              (df_sales_by_region plan
                 (derived_table
                    ([order_without_id]
                     ++ sale "ORD005" "Eve Davis" "Laptop Bag" (Some 1) 45 "West"
                          "Cancelled"
                     :: [order_without_price])))
          = map sales_region
              (df_sales_by_region plan'
                 (derived_table ([order_without_id] ++ [order_without_price])))
       /\ Forall (fun o =>
                    rounded_sum_of
                      (map (fun r : NamedRow => total_price r)
                           (in_region (sales_region o)
                              (derived_table
                                 ([order_without_id] ++ [order_without_price]))))
                      (total_regional_sales o))
                 (df_sales_by_region plan
                    (derived_table
                       ([order_without_id]
                        ++ sale "ORD005" "Eve Davis" "Laptop Bag" (Some 1) 45 "West"
                             "Cancelled"
                        :: [order_without_price]))).
Proof.
  split; [reflexivity|]. intros plan plan'.
  apply (dropped_order_has_no_effect plan plan'
           [order_without_id] [order_without_price]).
  reflexivity.
Defined.

(* ================================================================== *)
(** * The notebook's table meets the preconditions *)
(* ================================================================== *)

(** No row of the notebook has a null status: ten rows, one cancelled,
    nine kept. *)
Lemma notebook_cleaned_count :
  Forall (fun r => status r <> None) df_raw_sales
  /\ (length (cleaning_stage df_raw_sales)
      + length (with_status "Cancelled" df_raw_sales)
      = length df_raw_sales)%nat.
Proof.
  assert (H : Forall (fun r => status r <> None) df_raw_sales)
    by (repeat constructor; discriminate).
  split; [exact H | exact (cleaned_count_without_null_status _ H)].
Defined.

(** No row of the notebook has a null price. *)
Lemma notebook_total_price_not_null :
  Forall (fun r => price_per_unit r <> None) df_raw_sales
  /\ Forall (fun r : NamedRow => total_price r <> None) (derived_table df_raw_sales).
Proof.
  assert (H : Forall (fun r => price_per_unit r <> None) df_raw_sales)
    by (repeat constructor; discriminate).
  split; [exact H | exact (total_price_not_null _ H)].
Defined.

(** No row of the notebook lacks its order identifier. *)
Lemma notebook_orders_total :
  Forall (fun r : NamedRow => order_id r <> None) (derived_table df_raw_sales)
  /\ total_orders (df_orders_by_status_region (derived_table df_raw_sales))
     = Z.of_nat (length (derived_table df_raw_sales)).
Proof.
  assert (H : Forall (fun r : NamedRow => order_id r <> None)
                     (derived_table df_raw_sales)).
  { rewrite derived_as_kept. apply Forall_forall. intros d Hd.
    apply in_map_iff in Hd. destruct Hd as (r & <- & Hr).
    apply filter_In in Hr. destruct Hr as [Hr _].
    cbn [order_id priced_columns sales_columns derive_row fill_row].
    revert r Hr. apply Forall_forall. repeat constructor; discriminate. }
  split; [exact H | exact (orders_total_is_row_count _ H)].
Defined.

(** The groups of the notebook's derived table, last group first. *)
Lemma notebook_sales_any_group_order :
  Permutation
    (Spark.groupBy option_string_eq_dec (fun r : NamedRow => region r)
       (derived_table df_raw_sales))
    (rev (Spark.groupBy option_string_eq_dec (fun r : NamedRow => region r)
            (derived_table df_raw_sales)))
  /\ forall plan,
       df_sales_by_region plan (derived_table df_raw_sales)
       = Spark.orderBy region_compare sales_region
           (Spark.agg
              (fun k rows =>
                 mkRegionSales k
                   (Spark.round
                      (Spark.sum (plan k)
                         (map (fun r : NamedRow => total_price r) rows)) 2))
              (rev (Spark.groupBy option_string_eq_dec
                      (fun r : NamedRow => region r)
                      (derived_table df_raw_sales)))).
Proof.
  split; [apply Permutation_rev|]. intro plan.
  apply (sales_by_region_any_group_order plan), Permutation_rev.
Defined.

Lemma notebook_orders_any_group_order :
  Permutation
    (Spark.groupBy region_status_eq_dec (fun r : NamedRow => (region r, status r))
       (derived_table df_raw_sales))
    (rev (Spark.groupBy region_status_eq_dec
            (fun r : NamedRow => (region r, status r))
            (derived_table df_raw_sales)))
  /\ df_orders_by_status_region (derived_table df_raw_sales)
     = Spark.orderBy region_status_compare
         (fun o => (orders_region o, orders_status o))
         (Spark.agg
            (fun k rows =>
               mkRegionStatusOrders (fst k) (snd k)
                 (Spark.count (map (fun r : NamedRow => order_id r) rows)))
            (rev (Spark.groupBy region_status_eq_dec
                    (fun r : NamedRow => (region r, status r))
                    (derived_table df_raw_sales)))).
Proof.
  split; [apply Permutation_rev|].
  apply orders_by_status_region_any_group_order, Permutation_rev.
Defined.
